(** * RuleValidator: a shallow embedding of src/utils/rule-validator.ts

    The TypeScript class [RuleValidator<CTX>] is a tree of validation nodes.
    Every node owns a mutable [result] field, an optional guard [when], an
    optional rule body [rule] and an ordered array of children.  The method
    [validate] walks the tree depth first and folds the outcomes into the
    [result] fields through [handleResult].

    Modelling choices.
    - The mutable [result] fields live in a store, a finite map from node
      references to results.  A node reference is the list of child indices
      leading from the validated root to the node, so two distinct objects of
      the tree never share a reference.  A missing entry is the field
      initialiser [{status: 'none'}].
    - What the caller's callbacks can see and change (the context object and
      whatever their closures capture) is one value of type [CTX], threaded
      through every call.  Callbacks act on that value only: they do not
      reach into the validator tree they are handed.
    - A callback either completes normally or throws a JavaScript value.  The
      engine tells instances of [ValidationError] from all other values, and
      that is the only distinction the model keeps.
    - A promise is modelled by the way it settles: fulfilled, rejected, or
      never settled.  An [async] method is a state transformer returning the
      way its own promise settles.  A callback is modelled by what it does
      until it returns: what an asynchronous callback does to the context
      after it has handed back its promise is outside the model, and no
      statement below is about it.
    - [validate] is the traversal for an observer that returns normally,
      a function on the context.  [validateT] is the same traversal for an
      observer as the code can be handed one, a callback that may throw; on
      observers that return normally the two agree ([validateT_returning]).
    - A ghost [trace] records, in order, every call of a guard, of a rule body
      and of the observer.  The source has no such field; it is what
      side-effect counters in the callbacks would count. *)

From Stdlib Require Import String.
From stdpp Require Import base option list gmap.

(** ** Data model *)

(** [ValidationResult['status']]. *)
Inductive Status : Set :=
| none
| not_applicable
| running
| pass
| inconclusive
| fail.

Global Instance Status_eq_dec : EqDecision Status.
Proof. solve_decision. Defined.

(** JavaScript values as far as [instanceof ValidationError] can tell them
    apart.  [Raw] is the type of all values that are not instances of
    [ValidationError].  [errorCode] has type [any] in the source, hence the
    mutual definition. *)
Inductive JsValue (Raw : Type) : Type :=
| JsOther (x : Raw)
| JsValidationError (e : ValidationError Raw)
with ValidationError (Raw : Type) : Type :=
| mkValidationError (errorCode : JsValue Raw) (message : option string)
                    (errorName : string).

Arguments JsOther {Raw} x.
Arguments JsValidationError {Raw} e.
Arguments mkValidationError {Raw} errorCode message errorName.

Definition errorCode {Raw} (e : ValidationError Raw) : JsValue Raw :=
  match e with mkValidationError c _ _ => c end.

Definition message {Raw} (e : ValidationError Raw) : option string :=
  match e with mkValidationError _ m _ => m end.

Definition errorName {Raw} (e : ValidationError Raw) : string :=
  match e with mkValidationError _ _ n => n end.

(** [new ValidationError(errorCode, message?)]: the field [errorName] starts
    as the empty string. *)
Definition newValidationError {Raw} (code : JsValue Raw) (msg : option string)
  : ValidationError Raw :=
  mkValidationError code msg EmptyString.

(** [type ValidationResult = { status; error? }]. *)
Record ValidationResult (Raw : Type) : Type := mkResult {
  status : Status;
  error : option (ValidationError Raw)
}.

Arguments mkResult {Raw} status error.
Arguments status {Raw} _.
Arguments error {Raw} _.

(** The object literal [{ status: s }]. *)
Definition statusOnly {Raw} (s : Status) : ValidationResult Raw :=
  mkResult s None.

(** How a synchronous call ends. *)
Inductive Completion (Raw A : Type) : Type :=
| Normal (a : A)
| Throw (x : JsValue Raw).

Arguments Normal {Raw A} a.
Arguments Throw {Raw A} x.

(** How a promise settles. *)
Inductive Promise (Raw A : Type) : Type :=
| Fulfilled (a : A)
| RejectedWith (x : JsValue Raw)
| NeverSettles.

Arguments Fulfilled {Raw A} a.
Arguments RejectedWith {Raw A} x.
Arguments NeverSettles {Raw A}.

(** What [when] returns: [boolean | Promise<boolean>]. *)
Inductive GuardReturn (Raw : Type) : Type :=
| GuardBool (b : bool)
| GuardPromise (p : Promise Raw bool).

Arguments GuardBool {Raw} b.
Arguments GuardPromise {Raw} p.

(** What [rule] returns: [void | ValidationResult | Promise<ValidationResult>]. *)
Inductive RuleReturn (Raw : Type) : Type :=
| RuleVoid
| RuleResult (r : ValidationResult Raw)
| RulePromise (p : Promise Raw (ValidationResult Raw)).

Arguments RuleVoid {Raw}.
Arguments RuleResult {Raw} r.
Arguments RulePromise {Raw} p.

(** [interface RuleDescription<CTX>]. *)
Record RuleDescription (Raw CTX : Type) : Type := mkRuleDescription {
  id : string;
  description : option string;
  when : option (CTX -> Completion Raw (GuardReturn Raw) * CTX);
  rule : option (CTX -> Completion Raw (RuleReturn Raw) * CTX)
}.

Arguments mkRuleDescription {Raw CTX} id description when rule.
Arguments id {Raw CTX} _.
Arguments description {Raw CTX} _.
Arguments when {Raw CTX} _.
Arguments rule {Raw CTX} _.

(** [class RuleValidator<CTX>]: the descriptor and the ordered children.  The
    [parent] back-reference is never read by the engine; here it is the
    node reference with its last index removed. *)
#[warnings="-register-all"] Inductive RuleValidator (Raw CTX : Type) : Type :=
| mkRuleValidator (ruleInfo : RuleDescription Raw CTX)
                  (childValidators : list (RuleValidator Raw CTX)).

Arguments mkRuleValidator {Raw CTX} ruleInfo childValidators.

Definition ruleInfo {Raw CTX} (v : RuleValidator Raw CTX) : RuleDescription Raw CTX :=
  match v with mkRuleValidator info _ => info end.

Definition childValidators {Raw CTX} (v : RuleValidator Raw CTX)
  : list (RuleValidator Raw CTX) :=
  match v with mkRuleValidator _ cs => cs end.

(** A node is named by its position under the validated root. *)
Abbreviation NodeRef := (list nat).

(** [type ValidationObserver = (v, result) => void]. *)
Definition ValidationObserver (Raw CTX : Type) : Type :=
  NodeRef -> ValidationResult Raw -> CTX -> CTX.

(** Entries of the ghost trace. *)
Inductive Event (Raw : Type) : Type :=
| WhenCalled (v : NodeRef)
| RuleCalled (v : NodeRef)
| Observed (v : NodeRef) (r : ValidationResult Raw).

Arguments WhenCalled {Raw} v.
Arguments RuleCalled {Raw} v.
Arguments Observed {Raw} v r.

Record State (Raw CTX : Type) : Type := mkState {
  context : CTX;
  results : gmap NodeRef (ValidationResult Raw);
  trace : list (Event Raw)
}.

Arguments mkState {Raw CTX} context results trace.
Arguments context {Raw CTX} _.
Arguments results {Raw CTX} _.
Arguments trace {Raw CTX} _.

(** ** Operations *)

Section Engine.
Context {Raw CTX : Type}.

(** [RuleValidator.get]. *)
Definition get (info : RuleDescription Raw CTX) : RuleValidator Raw CTX :=
  mkRuleValidator info [].

(** [addValidator]: [childValidators.push(rule)]. *)
Definition addValidator (this rule : RuleValidator Raw CTX) : RuleValidator Raw CTX :=
  mkRuleValidator (ruleInfo this) (childValidators this ++ [rule]).

(** [addRule]. *)
Definition addRule (this : RuleValidator Raw CTX) (info : RuleDescription Raw CTX)
  : RuleValidator Raw CTX :=
  addValidator this (get info).

(** Reading [this.result]. *)
Definition getResult (st : State Raw CTX) (self : NodeRef) : ValidationResult Raw :=
  default (statusOnly none) (results st !! self).

(** The assignment [this.result = res]. *)
Definition setResult (self : NodeRef) (res : ValidationResult Raw)
           (st : State Raw CTX) : State Raw CTX :=
  mkState (context st) (<[self := res]> (results st)) (trace st).

(** The call [observer(this, this.result)]. *)
Definition notify (o : ValidationObserver Raw CTX) (self : NodeRef)
           (res : ValidationResult Raw) (st : State Raw CTX) : State Raw CTX :=
  mkState (o self res (context st)) (results st) (trace st ++ [Observed self res]).

(** [handleResult(res, observer?, isFinal = false)], lines 63-99. *)
Definition handleResult (self : NodeRef) (res : ValidationResult Raw)
           (observer : option (ValidationObserver Raw CTX)) (isFinal : bool)
           (st : State Raw CTX) : ValidationResult Raw * State Raw CTX :=
  let previousStatus := status (getResult st self) in
  let st1 :=
    match status res with
    | none | not_applicable | running => setResult self res st
    | pass =>
        if isFinal && bool_decide (status (getResult st self) = running)
        then setResult self res st else st
    | inconclusive =>
        if bool_decide (status (getResult st self) <> fail)
        then setResult self res st else st
    | fail =>
        if bool_decide (status (getResult st self) <> fail)
        then setResult self res st else st
    end in
  let st2 :=
    match observer with
    | Some o =>
        if bool_decide (previousStatus <> status (getResult st1 self))
        then notify o self (getResult st1 self) st1
        else st1
    | None => st1
    end in
  (getResult st2 self, st2).

(** *** Asynchronous code

    The body of an [async] method: it runs on the state and ends by
    fulfilling its promise, by rejecting it (a [throw], or an [await] on a
    rejected promise, that nothing caught), or by never settling it (an
    [await] on a promise that never settles). *)
Definition Async (A : Type) : Type :=
  State Raw CTX -> Promise Raw A * State Raw CTX.

Definition ret {A} (a : A) : Async A :=
  fun st => (Fulfilled a, st).

Definition bind {A B} (m : Async A) (k : A -> Async B) : Async B :=
  fun st =>
    match m st with
    | (Fulfilled a, st') => k a st'
    | (RejectedWith x, st') => (RejectedWith x, st')
    | (NeverSettles, st') => (NeverSettles, st')
    end.

(** A synchronous step that cannot throw. *)
Definition lift {A} (f : State Raw CTX -> A * State Raw CTX) : Async A :=
  fun st => let (a, st') := f st in (Fulfilled a, st').

(** [await p]. *)
Definition await {A} (p : Promise Raw A) : Async A :=
  fun st => (p, st).

(** [try { m } catch (E) { h E }]. *)
Definition tryCatch {A} (m : Async A) (h : JsValue Raw -> Async A) : Async A :=
  fun st =>
    match m st with
    | (RejectedWith x, st') => h x st'
    | other => other
    end.

(** A call of a caller-supplied callback on the context; [ev] is the entry
    it leaves in the ghost trace. *)
Definition call {A} (ev : Event Raw) (f : CTX -> Completion Raw A * CTX) : Async A :=
  fun st =>
    let (c, ctx') := f (context st) in
    let st' := mkState ctx' (results st) (trace st ++ [ev]) in
    match c with
    | Normal a => (Fulfilled a, st')
    | Throw x => (RejectedWith x, st')
    end.

End Engine.

Arguments Async : clear implicits.

Declare Scope async_scope.
Delimit Scope async_scope with async.
Notation "'let*' x ':=' m 'in' k" := (bind m (fun x => k))
  (at level 10, x name, m at level 100, k at level 200) : async_scope.
Notation "m ;; k" := (bind m (fun _ => k))
  (at level 100, k at level 200, right associativity) : async_scope.

Section Validate.
Context {Raw CTX : Type}.
Open Scope async_scope.

(** The value of the [catch] clause of [executeRule], lines 112-115. *)
Definition caught (E : JsValue Raw) : ValidationResult Raw :=
  mkResult fail
    (Some match E with
          | JsValidationError e => e
          | JsOther _ => newValidationError E None
          end).

(** [executeRule(context)], lines 101-120.  A result object and a promise
    are truthy, [undefined] is not. *)
Definition executeRule (info : RuleDescription Raw CTX) (self : NodeRef)
  : Async Raw CTX (ValidationResult Raw) :=
  match rule info with
  | Some body =>
      tryCatch
        (let* res := call (RuleCalled self) body in
         match res with
         | RuleVoid => ret (statusOnly pass)
         | RuleResult r => ret r
         | RulePromise p => await p
         end)
        (fun E => ret (caught E))
  | None => ret (statusOnly pass)
  end.

(** Truthiness of what a guard returned: a promise is an object. *)
Definition truthy (g : GuardReturn Raw) : bool :=
  match g with
  | GuardBool b => b
  | GuardPromise _ => true
  end.

(** Lines 123-125 of [validate]: the reset of [this.result] and
    [shouldExec = !this.ruleInfo.when || this.ruleInfo.when(context, this)]. *)
Definition shouldExec (info : RuleDescription Raw CTX) (self : NodeRef)
  : Async Raw CTX bool :=
  lift (fun st => (tt, setResult self (statusOnly none) st)) ;;
  match when info with
  | None => ret true
  | Some guard =>
      let* g := call (WhenCalled self) guard in
      ret (truthy g)
  end.

(** Lines 129-133 of [validate]: the node starts running and folds its own
    rule in. *)
Definition ownRule (info : RuleDescription Raw CTX) (self : NodeRef)
           (observer : option (ValidationObserver Raw CTX)) : Async Raw CTX unit :=
  lift (handleResult self (statusOnly running) observer false) ;;
  match rule info with
  | Some _ =>
      let* res := executeRule info self in
      lift (handleResult self res observer false) ;; ret tt
  | None => ret tt
  end.

(** Lines 135-142 of [validate]: the loop over [this.childValidators].  The
    child at index [i] is the node [self ++ [i]]. *)
Definition validateChildren
           (validateChild : RuleValidator Raw CTX -> NodeRef ->
                            Async Raw CTX (ValidationResult Raw))
           (self : NodeRef) (observer : option (ValidationObserver Raw CTX))
  : list (RuleValidator Raw CTX) -> nat -> Async Raw CTX unit :=
  fix loop (children : list (RuleValidator Raw CTX)) (i : nat) : Async Raw CTX unit :=
    match children with
    | [] => ret tt
    | child :: rest =>
        fun st =>
          if bool_decide (status (getResult st self) <> running)
          then (Fulfilled tt, st)
          else (let* childResult := validateChild child (self ++ [i]) in
                lift (handleResult self childResult observer false) ;;
                loop rest (S i)) st
    end.

(** Line 144 of [validate]. *)
Definition finish (self : NodeRef) (observer : option (ValidationObserver Raw CTX))
  : Async Raw CTX unit :=
  fun st =>
    if bool_decide (status (getResult st self) = running)
    then (lift (handleResult self (statusOnly pass) observer true) ;; ret tt) st
    else (Fulfilled tt, st).

(** [validate(context, observer?)], lines 122-150. *)
Fixpoint validate (v : RuleValidator Raw CTX) (self : NodeRef)
         (observer : option (ValidationObserver Raw CTX)) {struct v}
  : Async Raw CTX (ValidationResult Raw) :=
  match v with
  | mkRuleValidator info children =>
      let* exec := shouldExec info self in
      (if exec : bool
       then ownRule info self observer ;;
            validateChildren (fun child p => validate child p observer)
                             self observer children 0 ;;
            finish self observer
       else lift (handleResult self (statusOnly not_applicable) observer true) ;;
            ret tt) ;;
      (fun st => (Fulfilled (getResult st self), st))
  end.

End Validate.

(** ** Predicates on trees *)

Section Trees.
Context {Raw CTX : Type}.

(** [allNodes P v]: the descriptor of every node of the tree [v] satisfies [P]. *)
Fixpoint allNodes (P : RuleDescription Raw CTX -> Prop) (v : RuleValidator Raw CTX)
  : Prop :=
  match v with
  | mkRuleValidator info children =>
      P info /\
      (fix all (cs : list (RuleValidator Raw CTX)) : Prop :=
         match cs with
         | [] => True
         | c :: cs' => allNodes P c /\ all cs'
         end) children
  end.

(** The guard, if there is one, returns normally on every context. *)
Definition guardReturns (info : RuleDescription Raw CTX) : Prop :=
  forall guard c, when info = Some guard -> exists g, fst (guard c) = Normal g.

(** The rule body, if there is one, never hands back a result of status
    [none], directly or through the promise it returns. *)
Definition ruleNeverNone (info : RuleDescription Raw CTX) : Prop :=
  forall body c, rule info = Some body ->
    match fst (body c) with
    | Normal (RuleResult r) => status r <> none
    | Normal (RulePromise (Fulfilled r)) => status r <> none
    | _ => True
    end.


(** The [switch] statement of [handleResult] on its own, lines 70-94. *)
Definition switched (self : NodeRef) (res : ValidationResult Raw) (isFinal : bool)
           (st : State Raw CTX) : State Raw CTX :=
  match status res with
  | none | not_applicable | running => setResult self res st
  | pass =>
      if isFinal && bool_decide (status (getResult st self) = running)
      then setResult self res st else st
  | inconclusive | fail =>
      if bool_decide (status (getResult st self) <> fail)
      then setResult self res st else st
  end.

(** [grows p st st']: from [st] to [st'] only nodes at or below [p] had their
    [result] field written, and the trace was only appended to. *)
Definition grows (p : NodeRef) (st st' : State Raw CTX) : Prop :=
  (forall q, ~ p `prefix_of` q -> results st' !! q = results st !! q) /\
  trace st `prefix_of` trace st'.

(** The node an entry of the trace is about. *)
Definition eventNode (e : Event Raw) : NodeRef :=
  match e with
  | WhenCalled v | RuleCalled v | Observed v _ => v
  end.

(** [logs P st st']: the trace of [st'] is the trace of [st] followed by
    entries about nodes that satisfy [P]. *)
Definition logs (P : NodeRef -> Prop) (st st' : State Raw CTX) : Prop :=
  exists k, trace st' = trace st ++ k /\ Forall (fun e => P (eventNode e)) k.

(** The rule body, if there is one, never hands back a promise that stays
    pending for ever. *)
Definition ruleSettles (info : RuleDescription Raw CTX) : Prop :=
  forall body c, rule info = Some body ->
    fst (body c) <> Normal (RulePromise NeverSettles).

(** A node that is a pure container: no guard and no rule body. *)
Definition container (info : RuleDescription Raw CTX) : Prop :=
  when info = None /\ rule info = None.

(** A run of [handleResult] calls on one node, in order; each entry is the
    incoming result and the [isFinal] flag of the call. *)
Definition mergeAll (self : NodeRef) (observer : option (ValidationObserver Raw CTX))
           (incoming : list (ValidationResult Raw * bool)) (st : State Raw CTX)
  : State Raw CTX :=
  foldl (fun s m => snd (handleResult self (fst m) observer (snd m) s)) st incoming.

(** What the observer, or its absence, does to the context. *)
Definition effect (observer : option (ValidationObserver Raw CTX))
  : NodeRef -> ValidationResult Raw -> CTX -> CTX :=
  match observer with
  | Some o => o
  | None => fun _ _ c => c
  end.

(** Both present or both absent. *)
Definition sameShape (oa ob : option (ValidationObserver Raw CTX)) : Prop :=
  match oa, ob with
  | Some _, Some _ | None, None => True
  | _, _ => False
  end.


(** [sim keep ta tb sa sb]: the states [sa] and [sb] of two runs have the
    same context; every [result] field written in [sa] holds the same value
    in [sb]; and, of the entries that [keep] selects, the two traces hold
    [ta] and [tb] followed by the same entries. *)
Definition sim (keep : Event Raw -> bool) (ta tb : list (Event Raw))
           (sa sb : State Raw CTX) : Prop :=
  context sa = context sb /\
  (forall q, is_Some (results sa !! q) -> results sb !! q = results sa !! q) /\
  exists k, List.filter keep (trace sa) = ta ++ k /\
            List.filter keep (trace sb) = tb ++ k.

(** The observer call of [handleResult], line 96, when the status changed. *)
Definition observe (observer : option (ValidationObserver Raw CTX)) (self : NodeRef)
           (res : ValidationResult Raw) (st : State Raw CTX) : State Raw CTX :=
  match observer with
  | Some o => notify o self res st
  | None => st
  end.

(** The children of a node resolve with [pass] one after the other, each
    in the state its predecessor left, from [st] to [stEnd]; the child at
    position [i] of the node is the first of the list. *)
Fixpoint passesInTurn (observer : option (ValidationObserver Raw CTX)) (self : NodeRef)
         (children : list (RuleValidator Raw CTX)) (i : nat)
         (st stEnd : State Raw CTX) : Prop :=
  match children with
  | [] => stEnd = st
  | child :: rest =>
      exists r st',
        validate child (self ++ [i]) observer st = (Fulfilled r, st') /\
        status r = pass /\
        passesInTurn observer self rest (S i) st' stEnd
  end.

End Trees.

(** ** Observers that may throw

    [type ValidationObserver = (v, result) => void] as a callback like the
    guard and the rule body: it acts on the context and returns or throws.
    [handleResult] calls it at line 96, after the assignment to
    [this.result] and outside any [try]. *)

Definition ObserverCallback (Raw CTX : Type) : Type :=
  NodeRef -> ValidationResult Raw -> CTX -> Completion Raw unit * CTX.

Section ValidateT.
Context {Raw CTX : Type}.
Open Scope async_scope.

(** [handleResult], lines 63-99, with an observer that may throw: the
    [switch], then the observer call, then [return this.result]. *)
Definition handleResultT (self : NodeRef) (res : ValidationResult Raw)
           (observer : option (ObserverCallback Raw CTX)) (isFinal : bool)
  : Async Raw CTX (ValidationResult Raw) :=
  fun st =>
    let previousStatus := status (getResult st self) in
    let st1 := switched self res isFinal st in
    match observer with
    | Some o =>
        if bool_decide (previousStatus <> status (getResult st1 self))
        then (call (Observed self (getResult st1 self)) (o self (getResult st1 self)) ;;
              (fun st2 => (Fulfilled (getResult st2 self), st2))) st1
        else (Fulfilled (getResult st1 self), st1)
    | None => (Fulfilled (getResult st1 self), st1)
    end.

(** Lines 129-133 of [validate]. *)
Definition ownRuleT (info : RuleDescription Raw CTX) (self : NodeRef)
           (observer : option (ObserverCallback Raw CTX)) : Async Raw CTX unit :=
  handleResultT self (statusOnly running) observer false ;;
  match rule info with
  | Some _ =>
      let* res := executeRule info self in
      handleResultT self res observer false ;; ret tt
  | None => ret tt
  end.

(** Lines 135-142 of [validate]. *)
Definition validateChildrenT
           (validateChild : RuleValidator Raw CTX -> NodeRef ->
                            Async Raw CTX (ValidationResult Raw))
           (self : NodeRef) (observer : option (ObserverCallback Raw CTX))
  : list (RuleValidator Raw CTX) -> nat -> Async Raw CTX unit :=
  fix loop (children : list (RuleValidator Raw CTX)) (i : nat) : Async Raw CTX unit :=
    match children with
    | [] => ret tt
    | child :: rest =>
        fun st =>
          if bool_decide (status (getResult st self) <> running)
          then (Fulfilled tt, st)
          else (let* childResult := validateChild child (self ++ [i]) in
                handleResultT self childResult observer false ;;
                loop rest (S i)) st
    end.

(** Line 144 of [validate]. *)
Definition finishT (self : NodeRef) (observer : option (ObserverCallback Raw CTX))
  : Async Raw CTX unit :=
  fun st =>
    if bool_decide (status (getResult st self) = running)
    then (handleResultT self (statusOnly pass) observer true ;; ret tt) st
    else (Fulfilled tt, st).

(** [validate(context, observer?)], lines 122-150, with an observer that may
    throw. *)
Fixpoint validateT (v : RuleValidator Raw CTX) (self : NodeRef)
         (observer : option (ObserverCallback Raw CTX)) {struct v}
  : Async Raw CTX (ValidationResult Raw) :=
  match v with
  | mkRuleValidator info children =>
      let* exec := shouldExec info self in
      (if exec : bool
       then ownRuleT info self observer ;;
            validateChildrenT (fun child p => validateT child p observer)
                              self observer children 0 ;;
            finishT self observer
       else handleResultT self (statusOnly not_applicable) observer true ;;
            ret tt) ;;
      (fun st => (Fulfilled (getResult st self), st))
  end.

(** The observer, if there is one, returns normally whatever it is told. *)
Definition observerReturns (observer : option (ObserverCallback Raw CTX)) : Prop :=
  match observer with
  | Some o => forall p r c, exists c', o p r c = (Normal tt, c')
  | None => True
  end.

(** The callback [oT] returns normally and does to the context what the
    function [o] does. *)
Definition refinesObs (oT : option (ObserverCallback Raw CTX))
           (o : option (ValidationObserver Raw CTX)) : Prop :=
  match oT, o with
  | Some f, Some g => forall p r c, f p r c = (Normal tt, g p r c)
  | None, None => True
  | _, _ => False
  end.

(** What a callback does to the context, as a function. *)
Definition onContext (oT : option (ObserverCallback Raw CTX))
  : option (ValidationObserver Raw CTX) :=
  match oT with
  | Some f => Some (fun p r c => snd (f p r c))
  | None => None
  end.

End ValidateT.

(** ** Sample trees

    Contexts are counters that every sample callback increments, thrown
    values are strings. *)

Module Samples.

Definition st0 : State string nat := mkState 0 ∅ [].

(** A store in which the root has result [r], left by an earlier merge. *)
Definition stAt (r : ValidationResult string) : State string nat :=
  mkState 0 {[ [] := r ]} [].

Definition counting : ValidationObserver string nat := fun _ _ c => S c.

(** [() => { count++ }] *)
Definition countRule : nat -> Completion string (RuleReturn string) * nat :=
  fun c => (Normal RuleVoid, S c).

(** [() => { count++; throw 'boom' }] *)
Definition throwRule : nat -> Completion string (RuleReturn string) * nat :=
  fun c => (Throw (JsOther "boom"%string), S c).

Definition structured : ValidationError string :=
  mkValidationError (JsOther "E42"%string) (Some "bad input"%string) EmptyString.

(** [() => { count++; throw new ValidationError('E42', 'bad input') }] *)
Definition throwStructured : nat -> Completion string (RuleReturn string) * nat :=
  fun c => (Throw (JsValidationError structured), S c).

(** [() => { count++; return { status: 'none' } }] *)
Definition noneRule : nat -> Completion string (RuleReturn string) * nat :=
  fun c => (Normal (RuleResult (statusOnly none)), S c).

(** [() => false] *)
Definition falseGuard : nat -> Completion string (GuardReturn string) * nat :=
  fun c => (Normal (GuardBool false), c).

(** [async () => false] *)
Definition asyncFalseGuard : nat -> Completion string (GuardReturn string) * nat :=
  fun c => (Normal (GuardPromise (Fulfilled false)), c).

(** [() => { throw 'boom' }] *)
Definition throwGuard : nat -> Completion string (GuardReturn string) * nat :=
  fun c => (Throw (JsOther "boom"%string), c).

Definition named (name : string) when rule : RuleValidator string nat :=
  get (mkRuleDescription name None when rule).

Definition leaf := named "leaf" None None.
Definition A := named "A" None (Some throwRule).
Definition B := named "B" None (Some countRule).
Definition C := named "C" None (Some countRule).

(** [RuleValidator.get(parent).addValidator(A).addValidator(B).addValidator(C)] *)
Definition parentABC := addValidator (addValidator (addValidator leaf A) B) C.

Definition skipped :=
  addValidator (named "skipped" (Some falseGuard) (Some countRule)) B.

Definition asyncSkipped :=
  addValidator (named "asyncSkipped" (Some asyncFalseGuard) (Some countRule)) B.

Definition guardCrash := named "guardCrash" (Some throwGuard) (Some countRule).

Definition returnsNone := named "returnsNone" None (Some noneRule).

Definition crash := named "crash" None (Some throwRule).

Definition crashStructured := named "crashStructured" None (Some throwStructured).

(** What a rule body that throws ['boom'] leaves as result. *)
Definition boom : ValidationResult string :=
  mkResult fail (Some (mkValidationError (JsOther "boom"%string) None EmptyString)).


(** [() => { count++; return { status: 'inconclusive' } }] *)
Definition inconclusiveRule : nat -> Completion string (RuleReturn string) * nat :=
  fun c => (Normal (RuleResult (statusOnly inconclusive)), S c).

(** [() => { count++; return { status: 'pass', error: structured } }] *)
Definition passWithErrorRule : nat -> Completion string (RuleReturn string) * nat :=
  fun c => (Normal (RuleResult (mkResult pass (Some structured))), S c).

(** [() => { count++; return Promise.reject('late') }] *)
Definition rejectingRule : nat -> Completion string (RuleReturn string) * nat :=
  fun c => (Normal (RulePromise (RejectedWith (JsOther "late"%string))), S c).

(** [() => { count++; return new Promise(() => {}) }] *)
Definition hangingRule : nat -> Completion string (RuleReturn string) * nat :=
  fun c => (Normal (RulePromise NeverSettles), S c).

(** [() => true] *)
Definition trueGuard : nat -> Completion string (GuardReturn string) * nat :=
  fun c => (Normal (GuardBool true), c).

(** An observer that leaves the context alone. *)
Definition watching : ValidationObserver string nat := fun _ _ c => c.

Definition undecided := named "undecided" None (Some inconclusiveRule).
Definition rejecting := named "rejecting" None (Some rejectingRule).
Definition hanging := named "hanging" None (Some hangingRule).
Definition passWithError := named "passWithError" None (Some passWithErrorRule).
Definition guardedOff := named "guardedOff" (Some falseGuard) (Some countRule).
Definition guardedOn := named "guardedOn" (Some trueGuard) (Some countRule).

(** A container over a skipped child, a failing child and a counting child. *)
Definition mixed := addValidator (addValidator (addValidator leaf guardedOff) A) B.

(** A container whose children all pass. *)
Definition allPass := addValidator (addValidator (addValidator leaf B) guardedOn) C.

(** Containers only, two levels deep. *)
Definition hollow := addValidator (addValidator leaf (addValidator leaf leaf)) leaf.

(** A container whose first child has a guard that throws. *)
Definition crashingChild := addValidator (addValidator leaf guardCrash) B.

(** [() => true] in front of a rule body that throws. *)
Definition guardedCrash := named "guardedCrash" (Some trueGuard) (Some throwRule).

(** A guarded container over the crashing node and a counting node. *)
Definition crashBelow :=
  addValidator (addValidator (named "crashBelow" (Some trueGuard) None) guardedCrash) B.

(** The observer [() => { count++ }] as a callback. *)
Definition countingCallback : ObserverCallback string nat :=
  fun _ _ c => (Normal tt, S c).



End Samples.

(** ** The store and [handleResult] *)

Section MergeFacts.
Context {Raw CTX : Type}.
Implicit Types (st : State Raw CTX) (self q : NodeRef) (res : ValidationResult Raw).
Implicit Types (observer : option (ValidationObserver Raw CTX)).

Lemma getResult_setResult_eq self res st :
  getResult (setResult self res st) self = res.
Proof. unfold getResult, setResult; simpl. by rewrite lookup_insert_eq. Qed.

Lemma getResult_setResult_ne self q res st :
  self <> q -> getResult (setResult self res st) q = getResult st q.
Proof. intros Hne. unfold getResult, setResult; simpl. by rewrite lookup_insert_ne. Qed.

Lemma getResult_notify o self q res st :
  getResult (notify o self res st) q = getResult st q.
Proof. reflexivity. Qed.

Lemma handleResult_switched self res observer isFinal st :
  handleResult self res observer isFinal st =
  let st1 := switched self res isFinal st in
  let st2 := match observer with
             | Some o =>
                 if bool_decide (status (getResult st self) <> status (getResult st1 self))
                 then notify o self (getResult st1 self) st1 else st1
             | None => st1
             end in
  (getResult st1 self, st2).
Proof.
  unfold handleResult, switched.
  destruct (status res), observer as [o|]; simpl; try reflexivity;
    repeat case_bool_decide; reflexivity.
Qed.

Lemma handleResult_getResult self res observer isFinal st :
  getResult (snd (handleResult self res observer isFinal st)) self =
  getResult (switched self res isFinal st) self.
Proof.
  rewrite handleResult_switched; simpl.
  destruct observer; [case_bool_decide|]; reflexivity.
Qed.

Lemma handleResult_fst self res observer isFinal st :
  fst (handleResult self res observer isFinal st) =
  getResult (snd (handleResult self res observer isFinal st)) self.
Proof. rewrite handleResult_getResult, handleResult_switched. reflexivity. Qed.

Lemma switched_cases self res isFinal st :
  switched self res isFinal st = setResult self res st \/
  switched self res isFinal st = st.
Proof.
  unfold switched.
  destruct (status res); auto; destruct (_ && _) || case_bool_decide; auto.
Qed.

Lemma handleResult_cases self res observer isFinal st :
  getResult (snd (handleResult self res observer isFinal st)) self = res \/
  getResult (snd (handleResult self res observer isFinal st)) self = getResult st self.
Proof.
  rewrite handleResult_getResult.
  destruct (switched_cases self res isFinal st) as [-> | ->]; auto.
  left. apply getResult_setResult_eq.
Qed.

(** [handleResult] writes the [result] field of [this] and of no other node. *)
Lemma handleResult_frame self q res observer isFinal st :
  self <> q ->
  results (snd (handleResult self res observer isFinal st)) !! q = results st !! q.
Proof.
  intros Hne. rewrite handleResult_switched; simpl.
  assert (results (switched self res isFinal st) !! q = results st !! q) as Hs.
  { destruct (switched_cases self res isFinal st) as [-> | ->]; [|done].
    simpl. by rewrite lookup_insert_ne. }
  destruct observer; [case_bool_decide|]; exact Hs.
Qed.

(** What [handleResult] leaves in the trace and does to the context. *)
Lemma handleResult_trace self res observer isFinal st :
  let st' := snd (handleResult self res observer isFinal st) in
  trace st' = trace st ++
    match observer with
    | Some _ =>
        if bool_decide (status (getResult st self) <> status (getResult st' self))
        then [Observed self (getResult st' self)] else []
    | None => []
    end.
Proof.
  cbv zeta. rewrite handleResult_getResult, handleResult_switched; simpl.
  assert (trace (switched self res isFinal st) = trace st) as Hs.
  { destruct (switched_cases self res isFinal st) as [-> | ->]; done. }
  destruct observer; [case_bool_decide|]; simpl; rewrite Hs, ?app_nil_r; done.
Qed.

Lemma handleResult_context self res observer isFinal st :
  let st' := snd (handleResult self res observer isFinal st) in
  context st' =
    match observer with
    | Some o =>
        if bool_decide (status (getResult st self) <> status (getResult st' self))
        then o self (getResult st' self) (context st) else context st
    | None => context st
    end.
Proof.
  cbv zeta. rewrite handleResult_getResult, handleResult_switched; simpl.
  assert (context (switched self res isFinal st) = context st) as Hs.
  { destruct (switched_cases self res isFinal st) as [-> | ->]; done. }
  destruct observer; [case_bool_decide|]; simpl; rewrite Hs; done.
Qed.

(** A merge that is not finalizing never produces [pass]. *)
Lemma handleResult_not_final_pass self res observer st :
  status (getResult st self) <> pass ->
  status (getResult (snd (handleResult self res observer false st)) self) <> pass.
Proof.
  intros Hcur. rewrite handleResult_getResult. unfold switched.
  destruct (status res) eqn:Hres; simpl;
    rewrite ?getResult_setResult_eq, ?Hres; try done;
    case_bool_decide; rewrite ?getResult_setResult_eq, ?Hres; done.
Qed.

(** [fail] and [inconclusive] land on every node that is not [fail]. *)
Lemma handleResult_negative self res observer isFinal st :
  status res = inconclusive \/ status res = fail ->
  status (getResult st self) <> fail ->
  getResult (snd (handleResult self res observer isFinal st)) self = res.
Proof.
  intros Hres Hcur. rewrite handleResult_getResult. unfold switched.
  destruct Hres as [-> | ->]; rewrite bool_decide_eq_true_2 by done;
    apply getResult_setResult_eq.
Qed.

(** ** Claims about the merge *)

(** C2. An incoming [none], [not-applicable] or [running] always replaces
    the node's result.  An incoming [pass] replaces it when the merge is
    finalizing and the current status is [running]; when the merge is not
    finalizing, or the current status is not [running], the result stays as
    it was. *)
Theorem handleResult_unconditional_and_pass self res observer isFinal st :
  let st' := snd (handleResult self res observer isFinal st) in
  (status res = none \/ status res = not_applicable \/ status res = running ->
   getResult st' self = res) /\
  (status res = pass -> isFinal = true -> status (getResult st self) = running ->
   getResult st' self = res) /\
  (status res = pass -> isFinal = false -> getResult st' self = getResult st self) /\
  (status res = pass -> status (getResult st self) <> running ->
   getResult st' self = getResult st self).
Proof.
  cbv zeta. rewrite handleResult_getResult. unfold switched.
  split; [|split; [|split]].
  - intros [-> | [-> | ->]]; apply getResult_setResult_eq.
  - intros -> -> Hrun. rewrite bool_decide_eq_true_2 by done.
    apply getResult_setResult_eq.
  - intros -> ->. reflexivity.
  - intros -> Hrun. rewrite bool_decide_eq_false_2 by done.
    by rewrite andb_false_r.
Qed.

(** C3. An incoming [inconclusive] replaces the node's result unless the
    current status is [fail]; an incoming [fail] replaces it unless the
    current status is already [fail], and then the current result, error
    included, is kept. *)
Theorem handleResult_inconclusive_and_fail self res observer isFinal st :
  let st' := snd (handleResult self res observer isFinal st) in
  (status res = inconclusive -> status (getResult st self) <> fail ->
   getResult st' self = res) /\
  (status res = inconclusive -> status (getResult st self) = fail ->
   getResult st' self = getResult st self) /\
  (status res = fail -> status (getResult st self) <> fail ->
   getResult st' self = res) /\
  (status res = fail -> status (getResult st self) = fail ->
   getResult st' self = getResult st self /\
   error (getResult st' self) = error (getResult st self)).
Proof.
  cbv zeta. rewrite handleResult_getResult. unfold switched.
  split; [|split; [|split]].
  - intros -> Hcur. rewrite bool_decide_eq_true_2 by done.
    apply getResult_setResult_eq.
  - intros -> Hcur. by rewrite bool_decide_eq_false_2 by (rewrite Hcur; auto).
  - intros -> Hcur. rewrite bool_decide_eq_true_2 by done.
    apply getResult_setResult_eq.
  - intros -> Hcur. by rewrite bool_decide_eq_false_2 by (rewrite Hcur; auto).
Qed.

End MergeFacts.

(** ** The traversal, stage by stage *)

Section Traversal.
Context {Raw CTX : Type}.
Implicit Types (st : State Raw CTX) (self q : NodeRef) (res : ValidationResult Raw).
Implicit Types (observer : option (ValidationObserver Raw CTX)).
Implicit Types (info : RuleDescription Raw CTX) (v : RuleValidator Raw CTX).
Open Scope async_scope.

#[local] Arguments handleResult : simpl never.
#[local] Arguments executeRule : simpl never.
#[local] Arguments shouldExec : simpl never.
#[local] Arguments ownRule : simpl never.
#[local] Arguments finish : simpl never.

Lemma Fulfilled_pair_inv {A} (a b : A) (s s' : State Raw CTX) :
  (Fulfilled (Raw := Raw) a, s) = (Fulfilled b, s') -> a = b /\ s = s'.
Proof. by intros [= -> ->]. Qed.

(** Induction on trees, with the hypothesis for every child. *)
Lemma RuleValidator_nested_ind (P : RuleValidator Raw CTX -> Prop) :
  (forall info children, Forall P children -> P (mkRuleValidator info children)) ->
  forall v, P v.
Proof.
  intros step. fix IH 1. intros [info children]. apply step.
  induction children as [|c cs IHcs]; constructor; [apply IH | exact IHcs].
Qed.

Lemma allNodes_children P info children :
  allNodes P (mkRuleValidator info children) -> Forall (allNodes P) children.
Proof.
  intros [_ Hall]. induction children as [|c cs IHcs]; constructor.
  - apply Hall.
  - apply IHcs, Hall.
Qed.

Lemma grows_refl p st : grows p st st.
Proof. split; done. Qed.

Lemma grows_trans p st1 st2 st3 :
  grows p st1 st2 -> grows p st2 st3 -> grows p st1 st3.
Proof.
  intros [Hr1 Ht1] [Hr2 Ht2]. split.
  - intros q Hq. by rewrite Hr2, Hr1.
  - by etrans.
Qed.

Lemma grows_below p p' st st' :
  p `prefix_of` p' -> grows p' st st' -> grows p st st'.
Proof.
  intros Hpp [Hr Ht]. split; [|done].
  intros q Hq. apply Hr. intros Hp'. apply Hq. by etrans.
Qed.

Lemma grows_setResult self res st : grows self st (setResult self res st).
Proof.
  split; [|done]. intros q Hq. simpl.
  apply lookup_insert_ne. intros ->. by apply Hq.
Qed.

Lemma grows_handleResult self res observer isFinal st :
  grows self st (snd (handleResult self res observer isFinal st)).
Proof.
  split.
  - intros q Hq. apply handleResult_frame. intros ->. by apply Hq.
  - rewrite handleResult_trace. by apply prefix_app_r.
Qed.

Lemma child_not_prefix self i : ~ (self ++ [i]) `prefix_of` self.
Proof.
  intros H. apply prefix_length in H. rewrite length_app in H. simpl in H. lia.
Qed.

Lemma grows_child_getResult self i st st' :
  grows (self ++ [i]) st st' -> getResult st' self = getResult st self.
Proof.
  intros [Hr _]. unfold getResult. by rewrite (Hr self (child_not_prefix self i)).
Qed.

(** *** The stages written out *)

Lemma shouldExec_eq info self st :
  shouldExec info self st =
  match when info with
  | None => (Fulfilled true, setResult self (statusOnly none) st)
  | Some guard =>
      let st' := mkState (snd (guard (context st)))
                         (<[self := statusOnly none]> (results st))
                         (trace st ++ [WhenCalled self]) in
      match fst (guard (context st)) with
      | Normal g => (Fulfilled (truthy g), st')
      | Throw x => (RejectedWith x, st')
      end
  end.
Proof.
  unfold shouldExec, bind, lift, call, ret; simpl.
  destruct (when info) as [guard|]; [|reflexivity]. simpl.
  destruct (guard (context st)) as [[g|x] ctx']; reflexivity.
Qed.

Lemma executeRule_eq info self body st :
  rule info = Some body ->
  executeRule info self st =
  let st' := mkState (snd (body (context st))) (results st)
                     (trace st ++ [RuleCalled self]) in
  match fst (body (context st)) with
  | Normal RuleVoid => (Fulfilled (statusOnly pass), st')
  | Normal (RuleResult r) => (Fulfilled r, st')
  | Normal (RulePromise (Fulfilled r)) => (Fulfilled r, st')
  | Normal (RulePromise (RejectedWith x)) => (Fulfilled (caught x), st')
  | Normal (RulePromise NeverSettles) => (NeverSettles, st')
  | Throw x => (Fulfilled (caught x), st')
  end.
Proof.
  intros Hbody. unfold executeRule, tryCatch, bind, call, await, ret. rewrite Hbody.
  destruct (body (context st)) as [[[|r|[r|x|]]|x] ctx']; reflexivity.
Qed.

Lemma ownRule_eq info self observer st :
  ownRule info self observer st =
  let st1 := snd (handleResult self (statusOnly running) observer false st) in
  match rule info with
  | Some _ =>
      match executeRule info self st1 with
      | (Fulfilled res, st2) =>
          (Fulfilled tt, snd (handleResult self res observer false st2))
      | (RejectedWith x, st2) => (RejectedWith x, st2)
      | (NeverSettles, st2) => (NeverSettles, st2)
      end
  | None => (Fulfilled tt, st1)
  end.
Proof.
  unfold ownRule, bind, lift, ret.
  destruct (handleResult self (statusOnly running) observer false st) as [r0 st1].
  simpl. destruct (rule info) as [body|]; [|reflexivity].
  destruct (executeRule info self st1) as [[res|x|] st2]; reflexivity.
Qed.

Lemma validateChildren_cons f self observer child rest i st :
  validateChildren f self observer (child :: rest) i st =
  if bool_decide (status (getResult st self) <> running)
  then (Fulfilled tt, st)
  else match f child (self ++ [i]) st with
       | (Fulfilled childResult, st1) =>
           validateChildren f self observer rest (S i)
             (snd (handleResult self childResult observer false st1))
       | (RejectedWith x, st1) => (RejectedWith x, st1)
       | (NeverSettles, st1) => (NeverSettles, st1)
       end.
Proof.
  simpl. case_bool_decide; [reflexivity|].
  unfold bind, lift.
  destruct (f child (self ++ [i]) st) as [[childResult|x|] st1]; reflexivity.
Qed.

Lemma finish_eq self observer st :
  finish self observer st =
  (Fulfilled tt,
   if bool_decide (status (getResult st self) = running)
   then snd (handleResult self (statusOnly pass) observer true st)
   else st).
Proof.
  unfold finish, bind, lift, ret. case_bool_decide; reflexivity.
Qed.

Lemma validate_eq info children self observer st :
  validate (mkRuleValidator info children) self observer st =
  match shouldExec info self st with
  | (Fulfilled true, st0) =>
      match ownRule info self observer st0 with
      | (Fulfilled _, st1) =>
          match validateChildren (fun child p => validate child p observer)
                                 self observer children 0 st1 with
          | (Fulfilled _, st2) =>
              let st3 := snd (finish self observer st2) in
              (Fulfilled (getResult st3 self), st3)
          | (RejectedWith x, st2) => (RejectedWith x, st2)
          | (NeverSettles, st2) => (NeverSettles, st2)
          end
      | (RejectedWith x, st1) => (RejectedWith x, st1)
      | (NeverSettles, st1) => (NeverSettles, st1)
      end
  | (Fulfilled false, st0) =>
      let st3 := snd (handleResult self (statusOnly not_applicable) observer true st0) in
      (Fulfilled (getResult st3 self), st3)
  | (RejectedWith x, st0) => (RejectedWith x, st0)
  | (NeverSettles, st0) => (NeverSettles, st0)
  end.
Proof.
  cbn [validate]. unfold bind at 1.
  destruct (shouldExec info self st) as [[[|]|x|] st0]; try reflexivity.
  unfold bind at 1. unfold bind at 1.
  destruct (ownRule info self observer st0) as [[[]|x|] st1]; try reflexivity.
  unfold bind at 1.
  destruct (validateChildren _ self observer children 0 st1) as [[[]|x|] st2];
    try reflexivity.
  rewrite finish_eq. reflexivity.
Qed.

(** *** What every stage writes *)

Lemma shouldExec_grows info self st :
  grows self st (snd (shouldExec info self st)).
Proof.
  rewrite shouldExec_eq. destruct (when info) as [guard|].
  - cbv zeta. destruct (fst (guard (context st))); simpl;
      (split; [|by apply prefix_app_r]); intros q Hq; simpl;
      apply lookup_insert_ne; intros ->; by apply Hq.
  - apply grows_setResult.
Qed.


Lemma executeRule_grows info self st :
  grows self st (snd (executeRule info self st)).
Proof.
  destruct (rule info) as [body|] eqn:Hbody.
  - rewrite (executeRule_eq _ _ _ _ Hbody). cbv zeta.
    destruct (fst (body (context st))) as [[|r|[r|x|]]|x]; simpl;
      (split; [done | by apply prefix_app_r]).
  - unfold executeRule. rewrite Hbody. apply grows_refl.
Qed.

(** [executeRule] writes no [result] field. *)
Lemma executeRule_results info self st :
  results (snd (executeRule info self st)) = results st.
Proof.
  destruct (rule info) as [body|] eqn:Hbody.
  - rewrite (executeRule_eq _ _ _ _ Hbody). cbv zeta.
    by destruct (fst (body (context st))) as [[|r|[r|x|]]|x].
  - unfold executeRule. by rewrite Hbody.
Qed.


Lemma ownRule_grows_running info self observer st :
  grows self (snd (handleResult self (statusOnly running) observer false st))
             (snd (ownRule info self observer st)).
Proof.
  rewrite ownRule_eq. cbv zeta.
  destruct (rule info) as [body|]; [|apply grows_refl].
  pose proof (executeRule_grows info self
                (snd (handleResult self (statusOnly running) observer false st))) as H2.
  destruct (executeRule info self _) as [[res|x|] st2]; cbn [fst snd] in *;
    try exact H2.
  eapply grows_trans; [exact H2|]. apply grows_handleResult.
Qed.

Lemma ownRule_grows info self observer st :
  grows self st (snd (ownRule info self observer st)).
Proof.
  eapply grows_trans; [apply grows_handleResult | apply ownRule_grows_running].
Qed.


(** After its own rule a node is never [pass]: no merge so far was finalizing. *)
Lemma ownRule_not_pass info self observer st :
  status (getResult (snd (ownRule info self observer st)) self) <> pass.
Proof.
  rewrite ownRule_eq. cbv zeta.
  assert (status (getResult (snd (handleResult self (statusOnly running)
                                    observer false st)) self) <> pass) as H1.
  { rewrite handleResult_getResult. unfold switched; simpl.
    by rewrite getResult_setResult_eq. }
  destruct (rule info) as [body|]; [|exact H1].
  pose proof (executeRule_results info self
                (snd (handleResult self (statusOnly running) observer false st))) as H2.
  destruct (executeRule info self _) as [[res|x|] st2]; cbn [fst snd] in *.
  - apply handleResult_not_final_pass. unfold getResult in *. by rewrite H2.
  - unfold getResult in *. by rewrite H2.
  - unfold getResult in *. by rewrite H2.
Qed.

(** *** The loop over the children *)

(** An invariant [I] that every iteration keeps holds when the loop ends; a
    run that ends early in a child satisfies [E]. *)
Lemma validateChildren_rule f self observer
      (I : State Raw CTX -> Prop) (E : Promise Raw unit -> State Raw CTX -> Prop)
      children :
  Forall (fun child => forall i st,
            I st -> status (getResult st self) = running ->
            match f child (self ++ [i]) st with
            | (Fulfilled r, st1) => I (snd (handleResult self r observer false st1))
            | (RejectedWith x, st1) => E (RejectedWith x) st1
            | (NeverSettles, st1) => E NeverSettles st1
            end) children ->
  forall i st, I st ->
    match validateChildren f self observer children i st with
    | (Fulfilled _, st') => I st'
    | (RejectedWith x, st') => E (RejectedWith x) st'
    | (NeverSettles, st') => E NeverSettles st'
    end.
Proof.
  induction 1 as [|child rest Hchild _ IH]; intros i st HI; [exact HI|].
  rewrite validateChildren_cons. case_bool_decide as Hrun; [exact HI|].
  assert (status (getResult st self) = running) as Hrun'.
  { destruct (decide (status (getResult st self) = running)); [done|]. by destruct Hrun. }
  specialize (Hchild i st HI Hrun').
  destruct (f child (self ++ [i]) st) as [[r|x|] st1]; try exact Hchild.
  by apply IH.
Qed.

(** The loop does nothing once the node has left [running]. *)
Lemma validateChildren_stop f self observer children i st :
  status (getResult st self) <> running ->
  validateChildren f self observer children i st = (Fulfilled tt, st).
Proof.
  intros Hrun. destruct children as [|child rest]; [reflexivity|].
  rewrite validateChildren_cons. by rewrite bool_decide_eq_true_2.
Qed.

Lemma finish_grows self observer st :
  grows self st (snd (finish self observer st)).
Proof.
  rewrite finish_eq; cbn [snd]. case_bool_decide; [apply grows_handleResult | apply grows_refl].
Qed.

Lemma validateChildren_grows_if observer children :
  Forall (fun child => forall p st, grows p st (snd (validate child p observer st)))
         children ->
  forall self i st,
    grows self st
      (snd (validateChildren (fun child p => validate child p observer)
                             self observer children i st)).
Proof.
  intros Hchildren self i st.
  pose proof (validateChildren_rule (fun child p => validate child p observer)
                self observer (grows self st) (fun _ => grows self st) children) as Hloop.
  cbv beta in Hloop.
  match type of Hloop with ?A -> _ => assert A as Hstep end.
  { eapply Forall_impl; [exact Hchildren|]. intros child Hc j s Hs _.
    specialize (Hc (self ++ [j]) s).
    assert (grows self st (snd (validate child (self ++ [j]) observer s))) as Hs1.
    { eapply grows_trans; [exact Hs|]. eapply grows_below; [|exact Hc].
      by apply prefix_app_r. }
    destruct (validate child (self ++ [j]) observer s) as [[r|y|] s1];
      cbn [fst snd] in *; try exact Hs1.
    eapply grows_trans; [exact Hs1 | apply grows_handleResult]. }
  specialize (Hloop Hstep i st (grows_refl self st)).
  by destruct (validateChildren _ self observer children i st) as [[[]|x|] st2].
Qed.

Lemma validate_grows v : forall self observer st,
  grows self st (snd (validate v self observer st)).
Proof.
  induction v as [info children IH] using RuleValidator_nested_ind.
  intros self observer st. rewrite validate_eq.
  pose proof (shouldExec_grows info self st) as H0.
  destruct (shouldExec info self st) as [[[|]|x|] st0]; cbn [fst snd] in *;
    try exact H0.
  - pose proof (ownRule_grows info self observer st0) as H1.
    destruct (ownRule info self observer st0) as [[[]|x|] st1]; cbn [fst snd] in *;
      try (by eapply grows_trans).
    assert (Forall (fun child => forall p s, grows p s (snd (validate child p observer s)))
                   children) as IH'.
    { eapply Forall_impl; [exact IH|]. intros child Hc p s. apply Hc. }
    pose proof (validateChildren_grows_if observer children IH' self 0 st1) as H2.
    destruct (validateChildren _ self observer children 0 st1) as [[[]|x|] st2];
      cbn [fst snd] in *; try (eapply grows_trans; [|exact H2]; by eapply grows_trans).
    cbv zeta. cbn [snd].
    eapply grows_trans; [|apply finish_grows].
    eapply grows_trans; [|exact H2]. by eapply grows_trans.
  - cbv zeta. cbn [fst snd]. eapply grows_trans; [exact H0|]. apply grows_handleResult.
Qed.


(** Validating a child leaves the parent's [result] field alone. *)
Lemma validate_child_getResult v self i observer st :
  getResult (snd (validate v (self ++ [i]) observer st)) self = getResult st self.
Proof. eapply grows_child_getResult, validate_grows. Qed.

(** The loop never turns the node into [pass]: the merges of the children
    are not finalizing. *)
Lemma validateChildren_not_pass observer children self i st :
  status (getResult st self) <> pass ->
  status (getResult
            (snd (validateChildren (fun child p => validate child p observer)
                                   self observer children i st)) self) <> pass.
Proof.
  intros Hst.
  pose proof (validateChildren_rule (fun child p => validate child p observer)
                self observer
                (fun s => status (getResult s self) <> pass)
                (fun _ s => status (getResult s self) <> pass) children) as Hloop.
  cbv beta in Hloop.
  match type of Hloop with ?A -> _ => assert A as Hstep end.
  { apply Forall_forall. intros child _ j s Hs _.
    pose proof (validate_child_getResult child self j observer s) as Hsame.
    destruct (validate child (self ++ [j]) observer s) as [[r|y|] s1];
      cbn [fst snd] in *; rewrite <- Hsame in Hs; try exact Hs.
    by apply handleResult_not_final_pass. }
  specialize (Hloop Hstep i st Hst).
  by destruct (validateChildren _ self observer children i st) as [[[]|x|] st2].
Qed.

(** *** Who is written into the trace *)

Lemma logs_refl P st : logs P st st.
Proof. exists []. by rewrite app_nil_r. Qed.

Lemma logs_trans P st1 st2 st3 :
  logs P st1 st2 -> logs P st2 st3 -> logs P st1 st3.
Proof.
  intros (k1 & H1 & Hk1) (k2 & H2 & Hk2). exists (k1 ++ k2). split.
  - by rewrite H2, H1, app_assoc.
  - by apply Forall_app.
Qed.

Lemma logs_mono (P Q : NodeRef -> Prop) st st' :
  (forall q, P q -> Q q) -> logs P st st' -> logs Q st st'.
Proof.
  intros HPQ (k & H & Hk). exists k. split; [done|].
  eapply Forall_impl; [exact Hk|]. intros e. apply HPQ.
Qed.

Lemma logs_handleResult self res observer isFinal st :
  logs (eq self) st (snd (handleResult self res observer isFinal st)).
Proof.
  eexists. split; [apply handleResult_trace|].
  destruct observer; [case_bool_decide|]; repeat constructor.
Qed.

Lemma logs_shouldExec info self st :
  logs (eq self) st (snd (shouldExec info self st)).
Proof.
  rewrite shouldExec_eq. destruct (when info) as [guard|];
    [|exists []; by rewrite app_nil_r].
  cbv zeta. exists [WhenCalled self].
  destruct (fst (guard (context st))); cbn [snd trace]; repeat constructor.
Qed.

Lemma logs_executeRule info self st :
  logs (eq self) st (snd (executeRule info self st)).
Proof.
  destruct (rule info) as [body|] eqn:Hbody.
  - rewrite (executeRule_eq _ _ _ _ Hbody). cbv zeta. exists [RuleCalled self].
    destruct (fst (body (context st))) as [[|r|[r|x|]]|x]; cbn [snd trace];
      repeat constructor.
  - unfold executeRule. rewrite Hbody. apply logs_refl.
Qed.

Lemma logs_ownRule info self observer st :
  logs (eq self) st (snd (ownRule info self observer st)).
Proof.
  rewrite ownRule_eq. cbv zeta.
  pose proof (logs_handleResult self (statusOnly running) observer false st) as H1.
  destruct (rule info) as [body|]; [|exact H1].
  pose proof (logs_executeRule info self
                (snd (handleResult self (statusOnly running) observer false st))) as H2.
  destruct (executeRule info self _) as [[res|x|] st2]; cbn [fst snd] in *;
    try (by eapply logs_trans).
  eapply logs_trans; [by eapply logs_trans|]. apply logs_handleResult.
Qed.

Lemma logs_finish self observer st :
  logs (eq self) st (snd (finish self observer st)).
Proof.
  rewrite finish_eq; cbn [snd].
  case_bool_decide; [apply logs_handleResult | apply logs_refl].
Qed.

Lemma logs_at_below self (P : NodeRef -> Prop) st st' :
  (forall q, self `prefix_of` q -> P q) -> logs (eq self) st st' -> logs P st st'.
Proof. intros HP. apply logs_mono. intros q <-. by apply HP. Qed.

(** [validate] on the node [self] logs calls about [self] and the nodes
    below it, and about no other node. *)
Lemma logs_validate v : forall self observer st,
  logs (fun q => self `prefix_of` q) st (snd (validate v self observer st)).
Proof.
  induction v as [info children IH] using RuleValidator_nested_ind.
  intros self observer st. rewrite validate_eq.
  assert (forall s s', logs (eq self) s s' -> logs (fun q => self `prefix_of` q) s s')
    as Hat by (intros s s'; by apply logs_at_below).
  pose proof (Hat _ _ (logs_shouldExec info self st)) as H0.
  destruct (shouldExec info self st) as [[[|]|x|] st0]; cbn [fst snd] in *;
    try exact H0.
  - pose proof (Hat _ _ (logs_ownRule info self observer st0)) as H1.
    destruct (ownRule info self observer st0) as [[[]|x|] st1]; cbn [fst snd] in *;
      try (by eapply logs_trans).
    pose proof (validateChildren_rule (fun child p => validate child p observer)
                  self observer
                  (logs (fun q => self `prefix_of` q) st1)
                  (fun _ => logs (fun q => self `prefix_of` q) st1) children) as Hloop.
    cbv beta in Hloop.
    match type of Hloop with ?A -> _ => assert A as Hstep end.
    { eapply Forall_impl; [exact IH|]. intros child Hc j s Hs _.
      specialize (Hc (self ++ [j]) observer s).
      assert (logs (fun q => self `prefix_of` q) st1
                   (snd (validate child (self ++ [j]) observer s))) as Hs1.
      { eapply logs_trans; [exact Hs|]. eapply logs_mono; [|exact Hc].
        intros q Hq. etrans; [|exact Hq]. by apply prefix_app_r. }
      destruct (validate child (self ++ [j]) observer s) as [[r|y|] s1];
        cbn [fst snd] in *; try exact Hs1.
      eapply logs_trans; [exact Hs1|]. apply Hat, logs_handleResult. }
    specialize (Hloop Hstep 0 st1 (logs_refl _ st1)).
    assert (logs (fun q => self `prefix_of` q) st st1) as H01 by (by eapply logs_trans).
    destruct (validateChildren _ self observer children 0 st1) as [[[]|x|] st2];
      cbn [fst snd] in *; try (by eapply logs_trans).
    cbv zeta. cbn [snd]. eapply logs_trans; [|apply Hat, logs_finish].
    by eapply logs_trans.
  - cbv zeta. cbn [fst snd]. eapply logs_trans; [exact H0|].
    apply Hat, logs_handleResult.
Qed.

(** The status of a node that has just started running. *)
Lemma running_status self observer st :
  getResult (snd (handleResult self (statusOnly running) observer false st)) self =
  statusOnly running.
Proof.
  rewrite handleResult_getResult. unfold switched; cbn [status statusOnly].
  apply getResult_setResult_eq.
Qed.



(** What a rule body hands back is what [executeRule] resolves with, unless
    the body threw. *)
Lemma executeRule_not_none info self st res st' :
  ruleNeverNone info ->
  executeRule info self st = (Fulfilled res, st') ->
  status res <> none.
Proof.
  intros Hnever. destruct (rule info) as [body|] eqn:Hbody.
  - rewrite (executeRule_eq _ _ _ _ Hbody). cbv zeta.
    specialize (Hnever body (context st) Hbody).
    destruct (fst (body (context st))) as [[|r|[r|x|]]|x]; intros [= <- <-]; done.
  - unfold executeRule. rewrite Hbody. by intros [= <- <-].
Qed.

Lemma handleResult_not_none self res observer isFinal st :
  status res <> none -> status (getResult st self) <> none ->
  status (getResult (snd (handleResult self res observer isFinal st)) self) <> none.
Proof.
  intros Hres Hcur.
  by destruct (handleResult_cases self res observer isFinal st) as [-> | ->].
Qed.




(** ** Claims about the traversal *)

(** C5. When the rule body of a running node throws [x], [executeRule]
    resolves with a [fail] result and that result becomes the node's result.
    If [x] is a [ValidationError] the error attached is [x] itself; if not,
    it is a new [ValidationError] whose code is [x] and which has no
    message. *)
Theorem rule_throw_becomes_fail info self observer body st x :
  rule info = Some body ->
  fst (body (context (snd (handleResult self (statusOnly running) observer false st))))
    = Throw x ->
  exists E,
    fst (executeRule info self
           (snd (handleResult self (statusOnly running) observer false st)))
      = Fulfilled (mkResult fail (Some E)) /\
    getResult (snd (ownRule info self observer st)) self = mkResult fail (Some E) /\
    (forall e, x = JsValidationError e -> E = e) /\
    (forall y, x = JsOther y -> errorCode E = JsOther y /\ message E = None).
Proof.
  intros Hbody Hthrow.
  exists (match x with
          | JsValidationError e => e
          | JsOther _ => newValidationError x None
          end).
  assert (executeRule info self
            (snd (handleResult self (statusOnly running) observer false st)) =
          (Fulfilled (caught x),
           mkState (snd (body (context (snd (handleResult self (statusOnly running)
                                               observer false st)))))
                   (results (snd (handleResult self (statusOnly running)
                                    observer false st)))
                   (trace (snd (handleResult self (statusOnly running)
                                  observer false st)) ++ [RuleCalled self]))) as Hexec.
  { rewrite (executeRule_eq _ _ _ _ Hbody). cbv zeta. by rewrite Hthrow. }
  split; [by rewrite Hexec|]. split; [|split].
  - rewrite ownRule_eq. cbv zeta. rewrite Hbody, Hexec. cbn [snd].
    apply handleResult_negative; [by right|].
    pose proof (running_status self observer st) as Hrun.
    unfold getResult in *. cbn [results]. by rewrite Hrun.
  - by intros e ->.
  - by intros y ->.
Qed.

(** C7. A node without guard, rule body and children resolves with [pass].
    For every node, a run that resolves with [pass] went through the guard,
    the own rule and the loop over the children, was still [running] after
    them, and got its result from the finalizing merge of [{status: pass}].
    No merge turns a node into [pass] unless it is that one: the incoming
    status is [pass], the merge is finalizing and the node is [running]. *)
Theorem pass_only_by_finalizing :
  (forall info self observer st,
     when info = None -> rule info = None ->
     fst (validate (mkRuleValidator info []) self observer st)
       = Fulfilled (statusOnly pass)) /\
  (forall info children self observer st r st',
     validate (mkRuleValidator info children) self observer st = (Fulfilled r, st') ->
     status r = pass ->
     exists st0 st1 st2,
       shouldExec info self st = (Fulfilled true, st0) /\
       ownRule info self observer st0 = (Fulfilled tt, st1) /\
       validateChildren (fun child p => validate child p observer)
                        self observer children 0 st1 = (Fulfilled tt, st2) /\
       status (getResult st2 self) = running /\
       (r, st') = handleResult self (statusOnly pass) observer true st2) /\
  (forall self res observer isFinal st,
     status (getResult (snd (handleResult self res observer isFinal st)) self) = pass ->
     status (getResult st self) <> pass ->
     status res = pass /\ isFinal = true /\ status (getResult st self) = running).
Proof.
  split; [|split].
  - intros info self observer st Hwhen Hrule.
    rewrite validate_eq, shouldExec_eq, Hwhen, ownRule_eq, Hrule. cbv zeta.
    cbn [validateChildren ret fst snd]. rewrite finish_eq. cbn [fst snd].
    pose proof (running_status self observer (setResult self (statusOnly none) st))
      as Hrun.
    rewrite bool_decide_eq_true_2 by (by rewrite Hrun).
    rewrite handleResult_getResult. unfold switched. cbn [status statusOnly].
    rewrite Hrun. cbn [status statusOnly andb].
    rewrite bool_decide_eq_true_2 by done. by rewrite getResult_setResult_eq.
  - intros info children self observer st r st' Hrun Hpass.
    rewrite validate_eq in Hrun.
    destruct (shouldExec info self st) as [[[|]|x|] st0] eqn:H0; try discriminate.
    + pose proof (ownRule_not_pass info self observer st0) as Hnp1.
      destruct (ownRule info self observer st0) as [[[]|x|] st1] eqn:H1;
        try discriminate.
      pose proof (validateChildren_not_pass observer children self 0 st1 Hnp1) as Hnp2.
      destruct (validateChildren _ self observer children 0 st1) as [[[]|x|] st2] eqn:H2;
        try discriminate.
      cbn [fst snd] in *. cbv zeta in Hrun. rewrite finish_eq in Hrun. cbn [snd] in Hrun.
      case_bool_decide as Hst2.
      * exists st0, st1, st2. repeat (split; [done|]).
        apply Fulfilled_pair_inv in Hrun as [<- <-]. rewrite <- handleResult_fst.
        by destruct (handleResult self (statusOnly pass) observer true st2).
      * apply Fulfilled_pair_inv in Hrun as [<- <-]. by destruct Hnp2.
    + cbv zeta in Hrun. apply Fulfilled_pair_inv in Hrun as [<- <-].
      rewrite handleResult_getResult in Hpass. unfold switched in Hpass.
      cbn [status statusOnly] in Hpass. by rewrite getResult_setResult_eq in Hpass.
  - intros self res observer isFinal st Hnew Hcur.
    rewrite handleResult_getResult in Hnew. unfold switched in Hnew.
    destruct (status res) eqn:Hres;
      rewrite ?getResult_setResult_eq, ?Hres in Hnew; try discriminate.
    + destruct isFinal; cbn [andb] in Hnew; [|done].
      case_bool_decide; [done|]. done.
    + case_bool_decide; rewrite ?getResult_setResult_eq, ?Hres in Hnew;
        [discriminate | done].
    + case_bool_decide; rewrite ?getResult_setResult_eq, ?Hres in Hnew;
        [discriminate | done].
Qed.

(** C4. While a node with children [A :: rest] is running, if validating
    the first child [A] resolves with [fail], then the node's [validate]
    resolves with that result and stops in the state [A] left, changed only
    by the merge of [A]'s result: the trace gains nothing after [A] but the
    observer call for the node, and nothing in the whole run is about a later
    child or a node below one, so neither their guards nor their rule bodies
    were called.  In general the loop over the children does nothing once
    the node's status is not [running]. *)
Theorem children_short_circuit :
  (forall info A rest self observer st st0 st1 rA st2,
     shouldExec info self st = (Fulfilled true, st0) ->
     ownRule info self observer st0 = (Fulfilled tt, st1) ->
     status (getResult st1 self) = running ->
     validate A (self ++ [0]) observer st1 = (Fulfilled rA, st2) ->
     status rA = fail ->
     validate (mkRuleValidator info (A :: rest)) self observer st =
       (Fulfilled rA, snd (handleResult self rA observer false st2)) /\
     trace (snd (handleResult self rA observer false st2)) =
       trace st2 ++ match observer with
                    | Some _ => [Observed self rA]
                    | None => []
                    end /\
     logs (fun q => forall i below, q <> self ++ S i :: below)
          st (snd (handleResult self rA observer false st2))) /\
  (forall validateChild self observer children i st,
     status (getResult st self) <> running ->
     validateChildren validateChild self observer children i st = (Fulfilled tt, st)).
Proof.
  split; [|intros; by apply validateChildren_stop].
  intros info A rest self observer st st0 st1 rA st2 H0 H1 Hrun HA HrA.
  pose proof (validate_child_getResult A self 0 observer st1) as Hsame.
  rewrite HA in Hsame. cbn [snd] in Hsame.
  assert (getResult (snd (handleResult self rA observer false st2)) self = rA) as Hnew.
  { apply handleResult_negative; [by right|]. by rewrite Hsame, Hrun. }
  split; [|split].
  - rewrite validate_eq, H0, H1, validateChildren_cons.
    rewrite bool_decide_eq_false_2 by (intros Hne; by apply Hne).
    rewrite HA, validateChildren_stop by (by rewrite Hnew, HrA).
    cbv zeta. rewrite finish_eq. cbn [snd].
    rewrite bool_decide_eq_false_2 by (by rewrite Hnew, HrA).
    by rewrite Hnew.
  - rewrite handleResult_trace. destruct observer as [o|]; [|done].
    rewrite Hnew, Hsame, Hrun, HrA. by rewrite bool_decide_eq_true_2.
  - assert (forall s s' : State Raw CTX, logs (eq self) s s' ->
              logs (fun q => forall i below, q <> self ++ S i :: below) s s') as Hat.
    { intros s s'. apply logs_mono. intros q <- i below Heq.
      apply (f_equal length) in Heq. rewrite length_app in Heq. simpl in Heq. lia. }
    pose proof (logs_shouldExec info self st) as L0. rewrite H0 in L0.
    pose proof (logs_ownRule info self observer st0) as L1. rewrite H1 in L1.
    pose proof (logs_validate A (self ++ [0]) observer st1) as L2. rewrite HA in L2.
    cbn [snd] in *.
    eapply logs_trans; [apply Hat, L0|]. eapply logs_trans; [apply Hat, L1|].
    eapply logs_trans; [|apply Hat, logs_handleResult].
    eapply logs_mono; [|exact L2]. intros q [k ->] i below Heq.
    rewrite <- app_assoc in Heq. apply app_inv_head in Heq. discriminate.
Qed.

(** A guard that returns [false] synchronously: the node resolves with
    [not-applicable]; the guard is the only callback that ran, and the
    observer, if any, was told once. *)
Lemma validate_sync_guard_false info children self observer st guard :
  when info = Some guard ->
  fst (guard (context st)) = Normal (GuardBool false) ->
  fst (validate (mkRuleValidator info children) self observer st)
    = Fulfilled (statusOnly not_applicable) /\
  trace (snd (validate (mkRuleValidator info children) self observer st)) =
    trace st ++ WhenCalled self ::
      match observer with
      | Some _ => [Observed self (statusOnly not_applicable)]
      | None => []
      end.
Proof.
  intros Hwhen Hfalse.
  rewrite validate_eq, shouldExec_eq, Hwhen. cbv zeta. rewrite Hfalse.
  cbn [truthy fst snd].
  set (st0 := mkState _ _ _).
  assert (getResult st0 self = statusOnly none) as Hnone.
  { unfold getResult, st0; cbn [results]. by rewrite lookup_insert_eq. }
  assert (getResult (snd (handleResult self (statusOnly not_applicable)
                            observer true st0)) self
          = statusOnly not_applicable) as Hna.
  { rewrite handleResult_getResult. unfold switched; cbn [status statusOnly].
    apply getResult_setResult_eq. }
  split; [by rewrite Hna|].
  rewrite handleResult_trace, Hna, Hnone. cbn [trace st0 status statusOnly].
  rewrite <- app_assoc. by destruct observer.
Qed.







(** In a tree whose rule bodies never hand back [none], the loop over the
    children keeps the node away from [none]. *)
Lemma validateChildren_not_none observer children self i st :
  Forall (fun child => forall p s r s',
            validate child p observer s = (Fulfilled r, s') -> status r <> none)
         children ->
  status (getResult st self) <> none ->
  status (getResult
            (snd (validateChildren (fun child p => validate child p observer)
                                   self observer children i st)) self) <> none.
Proof.
  intros Hchildren Hst.
  pose proof (validateChildren_rule (fun child p => validate child p observer)
                self observer
                (fun s => status (getResult s self) <> none)
                (fun _ s => status (getResult s self) <> none) children) as Hloop.
  cbv beta in Hloop.
  match type of Hloop with ?A -> _ => assert A as Hstep end.
  { eapply Forall_impl; [exact Hchildren|]. intros child Hc j s Hs _.
    pose proof (validate_child_getResult child self j observer s) as Hsame.
    specialize (Hc (self ++ [j]) s).
    destruct (validate child (self ++ [j]) observer s) as [[r|y|] s1];
      cbn [fst snd] in *; rewrite <- Hsame in Hs; try exact Hs.
    apply handleResult_not_none; [|exact Hs]. by eapply Hc. }
  specialize (Hloop Hstep i st Hst).
  by destruct (validateChildren _ self observer children i st) as [[[]|x|] st2].
Qed.

(** C9, amended. The result [validate] resolves with never has status
    [running].  It has status [none] only when a rule body of the tree
    handed back a result of status [none]: when none does, the status is
    [pass], [inconclusive], [fail] or [not-applicable]. *)
Theorem validate_final_status v self observer st r st' :
  validate v self observer st = (Fulfilled r, st') ->
  status r <> running /\
  (allNodes ruleNeverNone v ->
   status r = pass \/ status r = inconclusive \/ status r = fail \/
   status r = not_applicable).
Proof.
  intros Hrun.
  assert (status r <> running) as Hnot_running.
  { destruct v as [info children]. rewrite validate_eq in Hrun.
    destruct (shouldExec info self st) as [[[|]|x|] st0]; try discriminate.
    - destruct (ownRule info self observer st0) as [[[]|x|] st1]; try discriminate.
      destruct (validateChildren _ self observer children 0 st1) as [[[]|x|] st2];
        try discriminate.
      cbv zeta in Hrun. rewrite finish_eq in Hrun. cbn [snd] in Hrun.
      apply Fulfilled_pair_inv in Hrun as [<- _].
      case_bool_decide as Hst2; [|done].
      rewrite handleResult_getResult. unfold switched. cbn [status statusOnly andb].
      rewrite bool_decide_eq_true_2 by done. by rewrite getResult_setResult_eq.
    - cbv zeta in Hrun. apply Fulfilled_pair_inv in Hrun as [<- _].
      rewrite handleResult_getResult. unfold switched. cbn [status statusOnly].
      by rewrite getResult_setResult_eq. }
  split; [exact Hnot_running|]. intros Hall.
  assert (status r <> none) as Hnot_none;
    [|destruct (status r); auto; by destruct Hnot_none || destruct Hnot_running].
  clear Hnot_running. revert self st r st' Hrun Hall.
  induction v as [info children IH] using RuleValidator_nested_ind.
  intros self st r st' Hrun Hall.
  pose proof (allNodes_children _ _ _ Hall) as Hchildren.
  destruct Hall as [Hrule _].
  rewrite validate_eq in Hrun.
  destruct (shouldExec info self st) as [[[|]|x|] st0]; try discriminate.
  - assert (status (getResult (snd (ownRule info self observer st0)) self) <> none)
      as Hown.
    { rewrite ownRule_eq. cbv zeta.
      pose proof (running_status self observer st0) as Hrunning.
      destruct (rule info) as [body|] eqn:Hbody; [|cbn [snd]; by rewrite Hrunning].
      pose proof (executeRule_results info self
                    (snd (handleResult self (statusOnly running) observer false st0)))
        as Hres.
      pose proof (fun res s => executeRule_not_none info self
                    (snd (handleResult self (statusOnly running) observer false st0))
                    res s Hrule) as Hnn.
      destruct (executeRule info self _) as [[res|x|] s2]; cbn [fst snd] in *.
      - apply handleResult_not_none; [by eapply Hnn|].
        unfold getResult in *. by rewrite Hres, Hrunning.
      - unfold getResult in *. by rewrite Hres, Hrunning.
      - unfold getResult in *. by rewrite Hres, Hrunning. }
    destruct (ownRule info self observer st0) as [[[]|x|] st1]; try discriminate.
    cbn [snd] in Hown.
    assert (Forall (fun child => forall p s r s',
                      validate child p observer s = (Fulfilled r, s') ->
                      status r <> none) children) as IH'.
    { rewrite Forall_forall in IH, Hchildren |- *. intros child Hin p s r0 s' Hc.
      eapply IH; eauto. }
    pose proof (validateChildren_not_none observer children self 0 st1 IH' Hown)
      as Hloop.
    destruct (validateChildren _ self observer children 0 st1) as [[[]|x|] st2];
      try discriminate.
    cbn [snd] in Hloop. cbv zeta in Hrun. rewrite finish_eq in Hrun. cbn [snd] in Hrun.
    apply Fulfilled_pair_inv in Hrun as [<- _].
    case_bool_decide; [|done]. by apply handleResult_not_none.
  - cbv zeta in Hrun. apply Fulfilled_pair_inv in Hrun as [<- _].
    rewrite handleResult_getResult. unfold switched. cbn [status statusOnly].
    by rewrite getResult_setResult_eq.
Qed.


End Traversal.

(** ** Beyond the claims: building trees, merging, running rules *)

Section Building.
Context {Raw CTX : Type}.
Implicit Types (st : State Raw CTX) (self q : NodeRef) (res : ValidationResult Raw).
Implicit Types (observer : option (ValidationObserver Raw CTX)).
Implicit Types (info : RuleDescription Raw CTX) (v : RuleValidator Raw CTX).

#[local] Arguments handleResult : simpl never.
#[local] Arguments executeRule : simpl never.

Lemma setResult_same self res st :
  results st !! self = Some res -> setResult self res st = st.
Proof.
  intros Hres. destruct st as [c m t]. unfold setResult; cbn [context results trace] in *.
  by rewrite insert_id.
Qed.

Lemma setResult_twice self res res' st :
  setResult self res (setResult self res' st) = setResult self res st.
Proof. unfold setResult; cbn [context results trace]. by rewrite insert_insert_eq. Qed.

Lemma switched_results_eq self res isFinal st :
  switched self res isFinal st <> st ->
  results (switched self res isFinal st) !! self = Some res.
Proof.
  intros Hne. destruct (switched_cases self res isFinal st) as [Heq | Heq];
    [|by destruct Hne].
  rewrite Heq. cbn [setResult results]. by rewrite lookup_insert_eq.
Qed.

(** A merge of [pass] that is not finalizing changes nothing at all. *)
Lemma handleResult_pass_absorbed self res observer st :
  status res = pass ->
  handleResult self res observer false st = (getResult st self, st).
Proof.
  intros Hres. rewrite handleResult_switched. unfold switched. rewrite Hres.
  cbn [andb]. cbv zeta.
  destruct observer; [|done]. by rewrite bool_decide_eq_false_2 by (intros H; by apply H).
Qed.

(** [addValidator] and [addRule] chained over a list: the descriptor of the
    node stays, the new children come after the old ones, in the order of
    the calls. *)
Lemma builders_keep_insertion_order :
  (forall (this : RuleValidator Raw CTX) (rules : list (RuleValidator Raw CTX)),
     foldl addValidator this rules =
     mkRuleValidator (ruleInfo this) (childValidators this ++ rules)) /\
  (forall (this : RuleValidator Raw CTX) (infos : list (RuleDescription Raw CTX)),
     foldl addRule this infos =
     mkRuleValidator (ruleInfo this) (childValidators this ++ map get infos)).
Proof.
  split.
  - intros this rules. revert this.
    induction rules as [|r rules IH]; intros [info children]; cbn [foldl].
    + cbn [ruleInfo childValidators]. by rewrite app_nil_r.
    + rewrite IH. unfold addValidator. cbn [ruleInfo childValidators].
      by rewrite <- app_assoc.
  - intros this infos. revert this.
    induction infos as [|i infos IH]; intros [info children]; cbn [foldl map].
    + cbn [ruleInfo childValidators]. by rewrite app_nil_r.
    + rewrite IH. unfold addRule, addValidator. cbn [ruleInfo childValidators].
      by rewrite <- app_assoc.
Qed.

(** X2. Merging the same result a second time is a no-op: the state is the
    one the first merge left, so the node's result is the same and the
    observer is not called again. *)
Theorem handleResult_idempotent self res observer isFinal st :
  handleResult self res observer isFinal
               (snd (handleResult self res observer isFinal st)) =
  (getResult (snd (handleResult self res observer isFinal st)) self,
   snd (handleResult self res observer isFinal st)).
Proof.
  set (st1 := snd (handleResult self res observer isFinal st)).
  assert (switched self res isFinal st1 = st1) as Hfix.
  { assert (results st1 = results (switched self res isFinal st)) as Hresults.
    { unfold st1. rewrite handleResult_switched. cbn [snd].
      destruct observer; [case_bool_decide|]; reflexivity. }
    assert (getResult st1 self = getResult (switched self res isFinal st) self) as Hget.
    { unfold getResult. by rewrite Hresults. }
    assert (forall r, results st1 !! self = Some r -> setResult self r st1 = st1)
      as Hsame by (intros r; apply setResult_same).
    unfold switched in *. rewrite Hget. rewrite Hresults in Hsame.
    destruct (status res) eqn:Hres.
    - apply Hsame. cbn [setResult results]. by rewrite lookup_insert_eq.
    - apply Hsame. cbn [setResult results]. by rewrite lookup_insert_eq.
    - apply Hsame. cbn [setResult results]. by rewrite lookup_insert_eq.
    - destruct isFinal; cbn [andb]; [|done].
      destruct (decide (status (getResult st self) = running)) as [Hrun|Hrun].
      + rewrite (bool_decide_eq_true_2 _ Hrun), getResult_setResult_eq, Hres.
        by rewrite bool_decide_eq_false_2.
      + rewrite (bool_decide_eq_false_2 _ Hrun). by rewrite bool_decide_eq_false_2.
    - destruct (decide (status (getResult st self) = fail)) as [Hfail|Hfail].
      + rewrite (bool_decide_eq_false_2 (status (getResult st self) <> fail))
          by (intros H; by apply H).
        by rewrite bool_decide_eq_false_2 by (intros H; by apply H).
      + rewrite (bool_decide_eq_true_2 _ Hfail), getResult_setResult_eq, Hres.
        rewrite bool_decide_eq_true_2 by done.
        apply Hsame. rewrite bool_decide_eq_true_2 by done.
        cbn [setResult results]. by rewrite lookup_insert_eq.
    - destruct (decide (status (getResult st self) = fail)) as [Hfail|Hfail].
      + rewrite (bool_decide_eq_false_2 (status (getResult st self) <> fail))
          by (intros H; by apply H).
        by rewrite bool_decide_eq_false_2 by (intros H; by apply H).
      + rewrite (bool_decide_eq_true_2 _ Hfail), getResult_setResult_eq, Hres.
        by rewrite bool_decide_eq_false_2 by (intros H; by apply H). }
  rewrite handleResult_switched. cbv zeta. rewrite Hfix.
  destruct observer; [|done].
  by rewrite bool_decide_eq_false_2 by (intros H; by apply H).
Qed.

(** X3. [fail] is absorbing for everything a rule body or a child can
    contribute without resetting the node: on a node whose status is [fail],
    any run of merges of [pass], [inconclusive] and [fail] results, finalizing
    or not, leaves the whole state as it was.  The first failure, with its
    error, is the one that stays, and the observer hears nothing. *)
Theorem fail_absorbs_later_merges self observer
        (incoming : list (ValidationResult Raw * bool)) st :
  status (getResult st self) = fail ->
  Forall (fun m => status (fst m) = pass \/ status (fst m) = inconclusive \/
                   status (fst m) = fail) incoming ->
  mergeAll self observer incoming st = st.
Proof.
  intros Hfail Hall. unfold mergeAll. revert st Hfail.
  induction Hall as [|[r f] rest Hr _ IH]; intros st Hfail; cbn [foldl]; [done|].
  cbn [fst snd] in *.
  assert (snd (handleResult self r observer f st) = st) as ->; [|by apply IH].
  rewrite handleResult_switched. cbv zeta. cbn [snd].
  assert (switched self r f st = st) as ->.
  { unfold switched. destruct Hr as [-> | [-> | ->]].
    - rewrite bool_decide_eq_false_2 by (by rewrite Hfail). by rewrite andb_false_r.
    - by rewrite bool_decide_eq_false_2 by (intros H; by apply H).
    - by rewrite bool_decide_eq_false_2 by (intros H; by apply H). }
  destruct observer; [|done].
  by rewrite bool_decide_eq_false_2 by (intros H; by apply H).
Qed.

(** X4. A rule body that returns a promise which is then rejected with [x]
    is treated like a rule body that throws [x]: [executeRule] resolves with
    a [fail] result, after the one call of the body, and writes no [result]
    field.  The error attached is [x] itself if it is a [ValidationError],
    and otherwise a new one with code [x], no message and the empty
    [errorName]. *)
Theorem rejected_rule_promise_becomes_fail info self body st x :
  rule info = Some body ->
  fst (body (context st)) = Normal (RulePromise (RejectedWith x)) ->
  exists E,
    executeRule info self st =
      (Fulfilled (mkResult fail (Some E)),
       mkState (snd (body (context st))) (results st)
               (trace st ++ [RuleCalled self])) /\
    (forall e, x = JsValidationError e -> E = e) /\
    (forall y, x = JsOther y ->
       E = mkValidationError (JsOther y) None EmptyString).
Proof.
  intros Hbody Hrej.
  exists (match x with
          | JsValidationError e => e
          | JsOther _ => newValidationError x None
          end).
  split; [|split].
  - rewrite (executeRule_eq _ _ _ _ Hbody). cbv zeta. by rewrite Hrej.
  - by intros e ->.
  - by intros y ->.
Qed.

End Building.

(** ** Beyond the claims: the traversal *)

Section Running.
Context {Raw CTX : Type}.
Implicit Types (st : State Raw CTX) (self q : NodeRef) (res : ValidationResult Raw).
Implicit Types (observer : option (ValidationObserver Raw CTX)).
Implicit Types (info : RuleDescription Raw CTX) (v : RuleValidator Raw CTX).

#[local] Arguments handleResult : simpl never.
#[local] Arguments executeRule : simpl never.
#[local] Arguments shouldExec : simpl never.
#[local] Arguments ownRule : simpl never.
#[local] Arguments finish : simpl never.

(** [validate] returns [this.result]. *)
Lemma validate_returns_field v self observer st r st' :
  validate v self observer st = (Fulfilled r, st') -> getResult st' self = r.
Proof.
  destruct v as [info children]. rewrite validate_eq.
  destruct (shouldExec info self st) as [[[|]|x|] st0]; try discriminate.
  - destruct (ownRule info self observer st0) as [[[]|x|] st1]; try discriminate.
    destruct (validateChildren _ self observer children 0 st1) as [[[]|x|] st2];
      try discriminate.
    cbv zeta. intros H. by apply Fulfilled_pair_inv in H as [<- <-].
  - cbv zeta. intros H. by apply Fulfilled_pair_inv in H as [<- <-].
Qed.

(** A run that resolves does not resolve with [running]. *)
Lemma validate_not_running v self observer st r st' :
  validate v self observer st = (Fulfilled r, st') -> status r <> running.
Proof.
  destruct v as [info children]. rewrite validate_eq.
  destruct (shouldExec info self st) as [[[|]|x|] st0]; try discriminate.
  - destruct (ownRule info self observer st0) as [[[]|x|] st1]; try discriminate.
    destruct (validateChildren _ self observer children 0 st1) as [[[]|x|] st2];
      try discriminate.
    cbv zeta. rewrite finish_eq. cbn [snd]. intros H.
    apply Fulfilled_pair_inv in H as [<- _].
    case_bool_decide as Hst2; [|done].
    rewrite handleResult_getResult. unfold switched. cbn [status statusOnly andb].
    rewrite bool_decide_eq_true_2 by done. by rewrite getResult_setResult_eq.
  - cbv zeta. intros H. apply Fulfilled_pair_inv in H as [<- _].
    rewrite handleResult_getResult. unfold switched. cbn [status statusOnly].
    by rewrite getResult_setResult_eq.
Qed.

(** On a running node every incoming result but [pass] takes the node's
    place. *)
Lemma handleResult_on_running self res observer isFinal st :
  status (getResult st self) = running -> status res <> pass ->
  getResult (snd (handleResult self res observer isFinal st)) self = res.
Proof.
  intros Hrun Hres. rewrite handleResult_getResult. unfold switched.
  destruct (status res) eqn:E; try apply getResult_setResult_eq; [done|..];
    rewrite bool_decide_eq_true_2 by (by rewrite Hrun);
    apply getResult_setResult_eq.
Qed.

Lemma executeRule_getResult info self st q :
  getResult (snd (executeRule info self st)) q = getResult st q.
Proof. unfold getResult. by rewrite executeRule_results. Qed.

(** X5. The verdict of the node's own rule comes first: when the rule body
    of a node that runs contributes a result [r] whose status is neither
    [pass] nor [running], [validate] resolves with [r] itself and stops in
    the state the rule left plus that one merge.  No child is validated,
    whatever children the node has. *)
Theorem own_rule_verdict_skips_children info children self observer st st0 body r st2 :
  shouldExec info self st = (Fulfilled true, st0) ->
  rule info = Some body ->
  executeRule info self (snd (handleResult self (statusOnly running) observer false st0))
    = (Fulfilled r, st2) ->
  status r <> pass -> status r <> running ->
  validate (mkRuleValidator info children) self observer st =
    (Fulfilled r, snd (handleResult self r observer false st2)).
Proof.
  intros H0 Hbody Hexec Hpass Hrun.
  assert (getResult st2 self = statusOnly running) as Hst2.
  { pose proof (executeRule_getResult info self
                  (snd (handleResult self (statusOnly running) observer false st0)) self)
      as Hsame.
    rewrite Hexec in Hsame. cbn [snd] in Hsame. by rewrite Hsame, running_status. }
  assert (getResult (snd (handleResult self r observer false st2)) self = r) as Hnew.
  { apply handleResult_on_running; [by rewrite Hst2|done]. }
  rewrite validate_eq, H0, ownRule_eq. cbv zeta. rewrite Hbody, Hexec.
  rewrite validateChildren_stop by (by rewrite Hnew).
  rewrite finish_eq. cbn [snd].
  rewrite bool_decide_eq_false_2 by (by rewrite Hnew). by rewrite Hnew.
Qed.

(** X6. A rule body that contributes a result of status [pass] contributes
    nothing: after the node's own rule the state is the one the rule body
    left, the node is still [{status: 'running'}], and whatever else the
    returned object carried (an [error]) is dropped.  Without children the
    node then resolves with the plain [{status: 'pass'}]. *)
Theorem own_rule_pass_is_dropped info self observer st st0 body r st2 :
  shouldExec info self st = (Fulfilled true, st0) ->
  rule info = Some body ->
  executeRule info self (snd (handleResult self (statusOnly running) observer false st0))
    = (Fulfilled r, st2) ->
  status r = pass ->
  ownRule info self observer st0 = (Fulfilled tt, st2) /\
  getResult st2 self = statusOnly running /\
  fst (validate (mkRuleValidator info []) self observer st)
    = Fulfilled (statusOnly pass).
Proof.
  intros H0 Hbody Hexec Hpass.
  assert (getResult st2 self = statusOnly running) as Hst2.
  { pose proof (executeRule_getResult info self
                  (snd (handleResult self (statusOnly running) observer false st0)) self)
      as Hsame.
    rewrite Hexec in Hsame. cbn [snd] in Hsame. by rewrite Hsame, running_status. }
  assert (ownRule info self observer st0 = (Fulfilled tt, st2)) as Hown.
  { rewrite ownRule_eq. cbv zeta. rewrite Hbody, Hexec.
    by rewrite handleResult_pass_absorbed. }
  split; [exact Hown|]. split; [exact Hst2|].
  rewrite validate_eq, H0, Hown. cbn [validateChildren ret]. cbv zeta.
  rewrite finish_eq. cbn [fst snd].
  rewrite bool_decide_eq_true_2 by (by rewrite Hst2).
  rewrite handleResult_getResult. unfold switched. cbn [status statusOnly andb].
  rewrite bool_decide_eq_true_2 by (by rewrite Hst2).
  by rewrite getResult_setResult_eq.
Qed.

(** X7. In the loop over the children, at any position: when the child
    about to be validated resolves with a result [r] whose status is not
    [pass], be it [fail], [inconclusive], [not-applicable] or [none], the loop
    ends there.  The node's result is [r] itself, the state is the one the
    child left plus that merge, and the remaining children are not
    validated. *)
Theorem child_verdict_stops_loop observer self child rest i st r st2 :
  status (getResult st self) = running ->
  validate child (self ++ [i]) observer st = (Fulfilled r, st2) ->
  status r <> pass ->
  validateChildren (fun c p => validate c p observer) self observer
                   (child :: rest) i st
    = (Fulfilled tt, snd (handleResult self r observer false st2)) /\
  getResult (snd (handleResult self r observer false st2)) self = r.
Proof.
  intros Hrun Hchild Hpass.
  pose proof (validate_not_running _ _ _ _ _ _ Hchild) as Hnr.
  pose proof (validate_child_getResult child self i observer st) as Hsame.
  rewrite Hchild in Hsame. cbn [snd] in Hsame.
  assert (getResult (snd (handleResult self r observer false st2)) self = r) as Hnew.
  { apply handleResult_on_running; [by rewrite Hsame|done]. }
  split; [|exact Hnew].
  rewrite validateChildren_cons.
  rewrite bool_decide_eq_false_2 by (intros H; by apply H).
  rewrite Hchild. apply validateChildren_stop. by rewrite Hnew.
Qed.

(** X8. A child that resolves with [pass] leaves no mark on its parent: the
    parent's result is untouched, the observer is not called for the parent,
    and the loop goes on with the next child from the very state the child
    left. *)
Theorem passing_child_leaves_no_mark observer self child rest i st r st2 :
  status (getResult st self) = running ->
  validate child (self ++ [i]) observer st = (Fulfilled r, st2) ->
  status r = pass ->
  validateChildren (fun c p => validate c p observer) self observer
                   (child :: rest) i st
    = validateChildren (fun c p => validate c p observer) self observer
                       rest (S i) st2 /\
  getResult st2 self = getResult st self.
Proof.
  intros Hrun Hchild Hpass.
  pose proof (validate_child_getResult child self i observer st) as Hsame.
  rewrite Hchild in Hsame. cbn [snd] in Hsame.
  split; [|exact Hsame].
  rewrite validateChildren_cons.
  rewrite bool_decide_eq_false_2 by (intros H; by apply H).
  by rewrite Hchild, handleResult_pass_absorbed.
Qed.

(** The loop over a list of children followed by more children: the later
    ones are gone through after the earlier ones, from the state they left,
    with the indices that follow. *)
Lemma validateChildren_app f self observer cs1 cs2 : forall i st,
  validateChildren f self observer (cs1 ++ cs2) i st =
  match validateChildren f self observer cs1 i st with
  | (Fulfilled _, st') => validateChildren f self observer cs2 (i + length cs1) st'
  | (RejectedWith x, st') => (RejectedWith x, st')
  | (NeverSettles, st') => (NeverSettles, st')
  end.
Proof.
  induction cs1 as [|child rest IH]; intros i st.
  - cbn [app length validateChildren ret]. by rewrite Nat.add_0_r.
  - rewrite <- app_comm_cons, !validateChildren_cons.
    case_bool_decide as Hrun.
    + cbn [length]. destruct cs2 as [|c2 rest2]; [reflexivity|].
      rewrite validateChildren_cons. by rewrite bool_decide_eq_true_2.
    + destruct (f child (self ++ [i]) st) as [[r|x|] st1]; try reflexivity.
      rewrite IH. cbn [length]. by rewrite Nat.add_succ_r.
Qed.

(** X1. A validator added with [addValidator] is validated last: after
    every child the node already had, from the state they left, as the child
    with the next index, and only if the node is still [running] after them.
    If it is not, the run is the run without the added validator. *)
Theorem added_validator_is_validated_last info cs added self observer st st0 st1 st2 :
  shouldExec info self st = (Fulfilled true, st0) ->
  ownRule info self observer st0 = (Fulfilled tt, st1) ->
  validateChildren (fun c p => validate c p observer) self observer cs 0 st1
    = (Fulfilled tt, st2) ->
  (status (getResult st2 self) <> running ->
   validate (addValidator (mkRuleValidator info cs) added) self observer st
     = validate (mkRuleValidator info cs) self observer st) /\
  (status (getResult st2 self) = running ->
   validate (addValidator (mkRuleValidator info cs) added) self observer st =
     match validate added (self ++ [length cs]) observer st2 with
     | (Fulfilled r, st3) =>
         (Fulfilled
            (getResult (snd (finish self observer
                               (snd (handleResult self r observer false st3)))) self),
          snd (finish self observer (snd (handleResult self r observer false st3))))
     | (RejectedWith x, st3) => (RejectedWith x, st3)
     | (NeverSettles, st3) => (NeverSettles, st3)
     end).
Proof.
  intros H0 H1 H2. unfold addValidator. cbn [ruleInfo childValidators].
  rewrite !validate_eq, H0, H1, validateChildren_app, H2. cbn [Nat.add].
  rewrite validateChildren_cons. split; intros Hrun.
  - by rewrite bool_decide_eq_true_2.
  - rewrite bool_decide_eq_false_2 by (intros H; by apply H).
    destruct (validate added (self ++ [length cs]) observer st2) as [[r|x|] st3];
      reflexivity.
Qed.

(** Children that pass in turn take the loop to its end without a mark on
    the node. *)
Lemma passesInTurn_loop observer self children : forall i st stEnd,
  status (getResult st self) = running ->
  passesInTurn observer self children i st stEnd ->
  validateChildren (fun c p => validate c p observer) self observer children i st
    = (Fulfilled tt, stEnd) /\
  getResult stEnd self = getResult st self.
Proof.
  induction children as [|child rest IH]; intros i st stEnd Hrun Hpass.
  - cbn [passesInTurn] in Hpass. by subst.
  - destruct Hpass as (r & st' & Hchild & Hr & Hrest).
    pose proof (validate_child_getResult child self i observer st) as Hsame.
    rewrite Hchild in Hsame. cbn [snd] in Hsame.
    destruct (IH (S i) st' stEnd) as [Hloop Hend]; [by rewrite Hsame|exact Hrest|].
    split; [|by rewrite Hend].
    rewrite validateChildren_cons.
    rewrite bool_decide_eq_false_2 by (intros H; by apply H).
    by rewrite Hchild, handleResult_pass_absorbed.
Qed.

(** X9. The conjunction: when a node runs, its own rule leaves it
    [running], and its children resolve with [pass] one after the other,
    each in the state its predecessor left, the node resolves with the plain
    [{status: 'pass'}], in the state the last child left plus the finalizing
    merge. *)
Theorem children_passing_in_turn_give_pass
        info children self observer st st0 st1 stEnd :
  shouldExec info self st = (Fulfilled true, st0) ->
  ownRule info self observer st0 = (Fulfilled tt, st1) ->
  status (getResult st1 self) = running ->
  passesInTurn observer self children 0 st1 stEnd ->
  validate (mkRuleValidator info children) self observer st =
    (Fulfilled (statusOnly pass),
     snd (handleResult self (statusOnly pass) observer true stEnd)).
Proof.
  intros H0 H1 Hrun Hpass.
  destruct (passesInTurn_loop observer self children 0 st1 stEnd Hrun Hpass)
    as [Hloop Hend].
  rewrite validate_eq, H0, H1, Hloop. cbv zeta. rewrite finish_eq. cbn [fst snd].
  rewrite bool_decide_eq_true_2 by (by rewrite Hend).
  rewrite handleResult_getResult. unfold switched. cbn [status statusOnly andb].
  rewrite bool_decide_eq_true_2 by (by rewrite Hend).
  by rewrite getResult_setResult_eq.
Qed.

(** X10. A tree of pure containers, of any shape, resolves with the plain
    [{status: 'pass'}]; run without an observer it leaves the context and
    the trace as they were, so nothing of the caller's was called. *)
Theorem containers_pass_and_call_nothing v self observer st :
  allNodes container v ->
  fst (validate v self observer st) = Fulfilled (statusOnly pass) /\
  (observer = None ->
   context (snd (validate v self observer st)) = context st /\
   trace (snd (validate v self observer st)) = trace st).
Proof.
  revert self st.
  induction v as [info children IH] using RuleValidator_nested_ind.
  intros self st Hall.
  pose proof (allNodes_children _ _ _ Hall) as Hchildren.
  destruct Hall as [[Hwhen Hrule] _].
  rewrite validate_eq, shouldExec_eq, Hwhen, ownRule_eq, Hrule. cbv zeta.
  set (st1 := snd (handleResult self (statusOnly running) observer false
                     (setResult self (statusOnly none) st))).
  assert (getResult st1 self = statusOnly running) as Hrun by apply running_status.
  assert (observer = None -> context st1 = context st /\ trace st1 = trace st) as Hquiet1.
  { intros ->. unfold st1. rewrite handleResult_switched. cbn [snd].
    unfold switched. cbn [status statusOnly]. done. }
  pose proof (validateChildren_rule (fun child p => validate child p observer)
                self observer
                (fun s => getResult s self = statusOnly running /\
                          (observer = None ->
                           context s = context st /\ trace s = trace st))
                (fun _ _ => False) children) as Hloop.
  cbv beta in Hloop.
  match type of Hloop with ?A -> _ => assert A as Hstep end.
  { rewrite Forall_forall in IH, Hchildren |- *. intros child Hin j s [Hs Hq] _.
    destruct (IH child Hin (self ++ [j]) s (Hchildren child Hin)) as [Hpass Hquiet].
    pose proof (validate_child_getResult child self j observer s) as Hsame.
    destruct (validate child (self ++ [j]) observer s) as [[r|y|] s1];
      cbn [fst snd] in *; try discriminate.
    assert (r = statusOnly pass) as -> by congruence.
    rewrite handleResult_pass_absorbed by done. cbn [snd].
    split; [by rewrite Hsame|].
    intros Hnone. destruct (Hquiet Hnone) as [-> ->]. by apply Hq. }
  specialize (Hloop Hstep 0 st1 (conj Hrun Hquiet1)).
  assert (exists st2,
            validateChildren (fun child p => validate child p observer)
                             self observer children 0 st1 = (Fulfilled tt, st2) /\
            getResult st2 self = statusOnly running /\
            (observer = None -> context st2 = context st /\ trace st2 = trace st))
    as (st2 & -> & Hst2 & Hquiet2).
  { destruct (validateChildren _ self observer children 0 st1) as [[[]|x|] st2];
      try done.
    by exists st2. }
  rewrite finish_eq. cbn [fst snd].
  rewrite bool_decide_eq_true_2 by (by rewrite Hst2).
  split.
  - rewrite handleResult_getResult. unfold switched. cbn [status statusOnly andb].
    rewrite bool_decide_eq_true_2 by (by rewrite Hst2).
    by rewrite getResult_setResult_eq.
  - intros ->. rewrite handleResult_switched. cbn [snd].
    unfold switched. cbn [status statusOnly andb].
    rewrite bool_decide_eq_true_2 by (by rewrite Hst2). cbn [setResult context trace].
    by apply Hquiet2.
Qed.

(** With an observer that returns normally, in a tree where no guard
    throws and no rule body hands back a promise that stays pending, the
    promise of [validate] is fulfilled. *)
Lemma validate_resolves v self observer st :
  allNodes (fun info => guardReturns info /\ ruleSettles info) v ->
  exists r, fst (validate v self observer st) = Fulfilled r.
Proof.
  revert self st.
  induction v as [info children IH] using RuleValidator_nested_ind.
  intros self st Hall.
  pose proof (allNodes_children _ _ _ Hall) as Hchildren.
  destruct Hall as [[Hguard Hsettles] _].
  rewrite validate_eq, shouldExec_eq.
  assert (forall st0, exists u st1, ownRule info self observer st0 = (Fulfilled u, st1))
    as Hown.
  { intros st0. rewrite ownRule_eq. cbv zeta.
    destruct (rule info) as [body|] eqn:Hbody; [|eauto].
    rewrite (executeRule_eq _ _ _ _ Hbody). cbv zeta.
    specialize (Hsettles body
      (context (snd (handleResult self (statusOnly running) observer false st0))) Hbody).
    destruct (fst (body _)) as [[|r|[r|x|]]|x]; eauto. by destruct Hsettles. }
  assert (forall st1, exists u st2,
            validateChildren (fun child p => validate child p observer)
                             self observer children 0 st1 = (Fulfilled u, st2))
    as Hloop.
  { intros st1.
    pose proof (validateChildren_rule (fun child p => validate child p observer)
                  self observer (fun _ => True) (fun _ _ => False) children) as Hrule.
    cbv beta in Hrule.
    match type of Hrule with ?A -> _ => assert A as Hstep end.
    { rewrite Forall_forall in IH, Hchildren |- *. intros child Hin j s _ _.
      destruct (IH child Hin (self ++ [j]) s (Hchildren child Hin)) as [r Hr].
      destruct (validate child (self ++ [j]) observer s) as [[r'|y|] s1];
        cbn [fst] in Hr; done. }
    specialize (Hrule Hstep 0 st1 I).
    destruct (validateChildren _ self observer children 0 st1) as [[u|x|] st2];
      [eauto|done|done]. }
  assert (forall st0, exists r,
            fst (match ownRule info self observer st0 with
                 | (Fulfilled _, st1) =>
                     match validateChildren (fun child p => validate child p observer)
                                            self observer children 0 st1 with
                     | (Fulfilled _, st2) =>
                         let st3 := snd (finish self observer st2) in
                         (Fulfilled (getResult st3 self), st3)
                     | (RejectedWith y, st2) => (RejectedWith y, st2)
                     | (NeverSettles, st2) => (NeverSettles, st2)
                     end
                 | (RejectedWith y, st1) => (RejectedWith y, st1)
                 | (NeverSettles, st1) => (NeverSettles, st1)
                 end) = Fulfilled r) as Hexec.
  { intros st0. destruct (Hown st0) as (u & st1 & ->).
    destruct (Hloop st1) as (u' & st2 & ->). cbv zeta. cbn [fst]. eauto. }
  destruct (when info) as [guard|] eqn:Hwhen; [|apply Hexec].
  cbv zeta. destruct (Hguard guard (context st) Hwhen) as [g ->].
  destruct (truthy g); [apply Hexec|]. cbn [fst]. eauto.
Qed.

(** X12. A rule body whose promise never settles hangs the run: the
    promise of [validate] never settles either, and the node's [result]
    field is left at [{status: 'running'}]. *)
Theorem pending_rule_leaves_node_running info children self observer st st0 body :
  shouldExec info self st = (Fulfilled true, st0) ->
  rule info = Some body ->
  fst (body (context (snd (handleResult self (statusOnly running) observer false st0))))
    = Normal (RulePromise NeverSettles) ->
  fst (validate (mkRuleValidator info children) self observer st) = NeverSettles /\
  getResult (snd (validate (mkRuleValidator info children) self observer st)) self
    = statusOnly running.
Proof.
  intros H0 Hbody Hpending.
  rewrite validate_eq, H0, ownRule_eq. cbv zeta. rewrite Hbody.
  rewrite (executeRule_eq _ _ _ _ Hbody). cbv zeta. rewrite Hpending. cbn [fst snd].
  split; [done|].
  pose proof (running_status self observer st0) as Hrun.
  unfold getResult in *. by cbn [results].
Qed.

(** X13. [validate] keeps to its own subtree: the [result] field of every
    node that is neither the validated node nor below it is left as it was,
    every guard call, rule call and observer call of the run is about the
    node or a node below it, and when the run resolves the node's own
    [result] field holds the result it resolved with. *)
Theorem validate_stays_in_subtree v self observer st :
  (forall q, ~ self `prefix_of` q ->
     getResult (snd (validate v self observer st)) q = getResult st q) /\
  logs (fun q => self `prefix_of` q) st (snd (validate v self observer st)) /\
  (forall r, fst (validate v self observer st) = Fulfilled r ->
     getResult (snd (validate v self observer st)) self = r).
Proof.
  split; [|split].
  - intros q Hq. destruct (validate_grows v self observer st) as [Hframe _].
    unfold getResult. by rewrite Hframe.
  - apply logs_validate.
  - intros r Hr. apply (validate_returns_field v self observer st).
    destruct (validate v self observer st) as [o s']. cbn [fst snd] in *. by subst.
Qed.

(** X14. A child whose run is rejected takes its parent with it: when the
    first child of a running node rejects with [x], the parent's [validate]
    rejects with [x] in the state the child left.  The parent's [result]
    field stays at [running] and no later child is validated. *)
Theorem child_rejection_propagates info A rest self observer st st0 st1 x st2 :
  shouldExec info self st = (Fulfilled true, st0) ->
  ownRule info self observer st0 = (Fulfilled tt, st1) ->
  status (getResult st1 self) = running ->
  validate A (self ++ [0]) observer st1 = (RejectedWith x, st2) ->
  validate (mkRuleValidator info (A :: rest)) self observer st = (RejectedWith x, st2) /\
  status (getResult st2 self) = running.
Proof.
  intros H0 H1 Hrun HA.
  pose proof (validate_child_getResult A self 0 observer st1) as Hsame.
  rewrite HA in Hsame. cbn [snd] in Hsame.
  split; [|by rewrite Hsame].
  rewrite validate_eq, H0, H1, validateChildren_cons.
  rewrite bool_decide_eq_false_2 by (intros H; by apply H).
  by rewrite HA.
Qed.

(** X18. A guard that returns [false] synchronously, on a node with any
    rule body and any children: [validate] resolves with
    [{status: 'not-applicable'}]; the state it leaves is the reset, the one
    guard call and the one merge, so the context is what the guard left
    (then the observer, told once), and neither the rule body nor any child
    was touched. *)
Theorem false_guard_skips_node info children self observer st guard :
  when info = Some guard ->
  fst (guard (context st)) = Normal (GuardBool false) ->
  validate (mkRuleValidator info children) self observer st =
    (Fulfilled (statusOnly not_applicable),
     snd (handleResult self (statusOnly not_applicable) observer true
            (mkState (snd (guard (context st)))
                     (<[self := statusOnly none]> (results st))
                     (trace st ++ [WhenCalled self])))) /\
  context (snd (validate (mkRuleValidator info children) self observer st)) =
    effect observer self (statusOnly not_applicable) (snd (guard (context st))) /\
  trace (snd (validate (mkRuleValidator info children) self observer st)) =
    trace st ++ WhenCalled self ::
      match observer with
      | Some _ => [Observed self (statusOnly not_applicable)]
      | None => []
      end.
Proof.
  intros Hwhen Hfalse.
  rewrite validate_eq, shouldExec_eq, Hwhen. cbv zeta. rewrite Hfalse.
  cbn [truthy fst snd].
  set (st0 := mkState _ _ _).
  assert (getResult st0 self = statusOnly none) as Hnone.
  { unfold getResult, st0; cbn [results]. by rewrite lookup_insert_eq. }
  assert (getResult (snd (handleResult self (statusOnly not_applicable)
                            observer true st0)) self
          = statusOnly not_applicable) as Hna.
  { rewrite handleResult_getResult. unfold switched; cbn [status statusOnly].
    apply getResult_setResult_eq. }
  split; [by rewrite Hna|]. split.
  - rewrite handleResult_context, Hna, Hnone. cbn [context st0 status statusOnly].
    destruct observer; [|done]. by rewrite bool_decide_eq_true_2.
  - rewrite handleResult_trace, Hna, Hnone. cbn [trace st0 status statusOnly].
    rewrite <- app_assoc. by destruct observer.
Qed.

End Running.

(** ** Beyond the claims: two runs side by side *)

Section TwoRuns.
Context {Raw CTX : Type}.
Variable keep : Event Raw -> bool.
Variables oa ob : option (ValidationObserver Raw CTX).
Hypothesis effect_eq : forall p r c, effect oa p r c = effect ob p r c.
Hypothesis keep_ok : sameShape oa ob \/ forall p r, keep (Observed p r) = false.
Implicit Types (sa sb : State Raw CTX) (self q : NodeRef) (res : ValidationResult Raw).
Implicit Types (ta tb : list (Event Raw)).
Implicit Types (info : RuleDescription Raw CTX) (v : RuleValidator Raw CTX).

#[local] Arguments handleResult : simpl never.
#[local] Arguments executeRule : simpl never.
#[local] Arguments shouldExec : simpl never.
#[local] Arguments ownRule : simpl never.
#[local] Arguments finish : simpl never.

Lemma sim_getResult ta tb sa sb q :
  sim keep ta tb sa sb -> is_Some (results sa !! q) ->
  getResult sb q = getResult sa q.
Proof. intros (_ & Hres & _) Hq. unfold getResult. by rewrite Hres. Qed.

Lemma sim_setResult ta tb sa sb q res :
  sim keep ta tb sa sb ->
  sim keep ta tb (setResult q res sa) (setResult q res sb).
Proof.
  intros (Hctx & Hres & Htr). split; [exact Hctx|]. split; [|exact Htr].
  intros q' Hq'. cbn [setResult results] in *.
  destruct (decide (q = q')) as [<- | Hne].
  - by rewrite !lookup_insert_eq.
  - rewrite !lookup_insert_ne in * by done. by apply Hres.
Qed.

Lemma setResult_is_Some sa q res : is_Some (results (setResult q res sa) !! q).
Proof. cbn [setResult results]. rewrite lookup_insert_eq. eauto. Qed.

(** The same callback entry logged in both runs, with the same new context. *)
Lemma sim_log ta tb sa sb (c : CTX) (e : Event Raw) :
  sim keep ta tb sa sb ->
  sim keep ta tb (mkState c (results sa) (trace sa ++ [e]))
                 (mkState c (results sb) (trace sb ++ [e])).
Proof.
  intros (Hctx & Hres & k & Ha & Hb). split; [done|]. split; [exact Hres|].
  exists (k ++ List.filter keep [e]). cbn [trace].
  by rewrite !List.filter_app, Ha, Hb, !app_assoc.
Qed.

Lemma sim_observe ta tb sa sb self res :
  sim keep ta tb sa sb ->
  sim keep ta tb (observe oa self res sa) (observe ob self res sb).
Proof.
  intros (Hctx & Hres & k & Ha & Hb).
  pose proof (effect_eq self res (context sa)) as Heff.
  unfold observe, notify. destruct oa as [fa|], ob as [fb|]; cbn [effect] in Heff.
  - split; [cbn [context]; by rewrite <- Hctx|]. split; [exact Hres|].
    exists (k ++ List.filter keep [Observed self res]). cbn [trace].
    by rewrite !List.filter_app, Ha, Hb, !app_assoc.
  - destruct keep_ok as [[] | Hdrop].
    split; [cbn [context]; by rewrite <- Hctx|]. split; [exact Hres|].
    exists k. cbn [trace]. rewrite List.filter_app. cbn [List.filter].
    by rewrite Hdrop, app_nil_r.
  - destruct keep_ok as [[] | Hdrop].
    split; [cbn [context]; by rewrite <- Hctx|]. split; [exact Hres|].
    exists k. cbn [trace]. rewrite List.filter_app. cbn [List.filter].
    by rewrite Hdrop, app_nil_r.
  - split; [exact Hctx|]. split; [exact Hres|]. by exists k.
Qed.

Lemma observe_results (o : option (ValidationObserver Raw CTX)) self res sa :
  results (observe o self res sa) = results sa.
Proof. by destruct o. Qed.

Lemma handleResult_observe (o : option (ValidationObserver Raw CTX)) self res isFinal sa :
  handleResult self res o isFinal sa =
  (getResult (switched self res isFinal sa) self,
   if bool_decide (status (getResult sa self)
                   <> status (getResult (switched self res isFinal sa) self))
   then observe o self (getResult (switched self res isFinal sa) self)
                (switched self res isFinal sa)
   else switched self res isFinal sa).
Proof.
  rewrite handleResult_switched. cbv zeta. destruct o; [done|].
  by case_bool_decide.
Qed.

Lemma sim_switched ta tb sa sb self res isFinal :
  sim keep ta tb sa sb -> is_Some (results sa !! self) ->
  sim keep ta tb (switched self res isFinal sa) (switched self res isFinal sb) /\
  is_Some (results (switched self res isFinal sa) !! self).
Proof.
  intros Hsim Hself. unfold switched.
  rewrite (sim_getResult _ _ _ _ _ Hsim Hself).
  destruct (status res); try (split; [by apply sim_setResult|apply setResult_is_Some]).
  - destruct (isFinal && _); [split; [by apply sim_setResult|apply setResult_is_Some]|done].
  - case_bool_decide; [split; [by apply sim_setResult|apply setResult_is_Some]|done].
  - case_bool_decide; [split; [by apply sim_setResult|apply setResult_is_Some]|done].
Qed.

Lemma sim_handleResult ta tb sa sb self res isFinal :
  sim keep ta tb sa sb -> is_Some (results sa !! self) ->
  fst (handleResult self res oa isFinal sa) = fst (handleResult self res ob isFinal sb) /\
  sim keep ta tb (snd (handleResult self res oa isFinal sa))
                 (snd (handleResult self res ob isFinal sb)) /\
  is_Some (results (snd (handleResult self res oa isFinal sa)) !! self).
Proof.
  intros Hsim Hself.
  destruct (sim_switched _ _ _ _ self res isFinal Hsim Hself) as [Hsw Hself'].
  rewrite !handleResult_observe. cbn [fst snd].
  rewrite (sim_getResult _ _ _ _ _ Hsim Hself), (sim_getResult _ _ _ _ _ Hsw Hself').
  split; [done|].
  case_bool_decide; [|done].
  split; [by apply sim_observe|]. by rewrite observe_results.
Qed.

Lemma sim_shouldExec ta tb sa sb info self :
  sim keep ta tb sa sb ->
  fst (shouldExec info self sa) = fst (shouldExec info self sb) /\
  sim keep ta tb (snd (shouldExec info self sa)) (snd (shouldExec info self sb)) /\
  is_Some (results (snd (shouldExec info self sa)) !! self).
Proof.
  intros Hsim. pose proof Hsim as (Hctx & _).
  pose proof (sim_setResult _ _ _ _ self (statusOnly none) Hsim) as Hset.
  rewrite !shouldExec_eq. destruct (when info) as [guard|].
  - cbv zeta. rewrite <- Hctx.
    pose proof (sim_log _ _ _ _ (snd (guard (context sa))) (WhenCalled self) Hset)
      as Hlog.
    cbn [setResult results trace] in Hlog.
    destruct (fst (guard (context sa))); cbn [fst snd results];
      (split; [done|]); (split; [exact Hlog|]); rewrite lookup_insert_eq; eauto.
  - cbn [fst snd]. split; [done|]. split; [exact Hset|]. apply setResult_is_Some.
Qed.

Lemma sim_executeRule ta tb sa sb info self :
  sim keep ta tb sa sb ->
  fst (executeRule info self sa) = fst (executeRule info self sb) /\
  sim keep ta tb (snd (executeRule info self sa)) (snd (executeRule info self sb)).
Proof.
  intros Hsim. pose proof Hsim as (Hctx & _).
  destruct (rule info) as [body|] eqn:Hbody.
  - rewrite !(executeRule_eq _ _ _ _ Hbody). cbv zeta. rewrite <- Hctx.
    pose proof (sim_log _ _ _ _ (snd (body (context sa))) (RuleCalled self) Hsim)
      as Hlog.
    destruct (fst (body (context sa))) as [[|r|[r|x|]]|x]; cbn [fst snd]; done.
  - unfold executeRule. rewrite Hbody. done.
Qed.

Lemma sim_ownRule ta tb sa sb info self :
  sim keep ta tb sa sb -> is_Some (results sa !! self) ->
  fst (ownRule info self oa sa) = fst (ownRule info self ob sb) /\
  sim keep ta tb (snd (ownRule info self oa sa)) (snd (ownRule info self ob sb)) /\
  is_Some (results (snd (ownRule info self oa sa)) !! self).
Proof.
  intros Hsim Hself. rewrite !ownRule_eq. cbv zeta.
  destruct (sim_handleResult _ _ _ _ self (statusOnly running) false Hsim Hself)
    as (_ & Hsim1 & Hself1).
  destruct (rule info) as [body|]; [|done].
  destruct (sim_executeRule _ _ _ _ info self Hsim1) as [Hfst Hsim2].
  pose proof (executeRule_results info self
                (snd (handleResult self (statusOnly running) oa false sa))) as Hres.
  destruct (executeRule info self (snd (handleResult self _ oa false sa)))
    as [pa sa2].
  destruct (executeRule info self (snd (handleResult self _ ob false sb)))
    as [pb sb2].
  cbn [fst snd] in *. subst pb. rewrite <- Hres in Hself1.
  destruct pa as [r|x|]; cbn [fst snd]; try done.
  destruct (sim_handleResult _ _ _ _ self r false Hsim2 Hself1) as (_ & Hsim3 & Hself3).
  done.
Qed.

Lemma sim_finish ta tb sa sb self :
  sim keep ta tb sa sb -> is_Some (results sa !! self) ->
  sim keep ta tb (snd (finish self oa sa)) (snd (finish self ob sb)) /\
  getResult (snd (finish self ob sb)) self = getResult (snd (finish self oa sa)) self.
Proof.
  intros Hsim Hself. rewrite !finish_eq. cbn [snd].
  rewrite (sim_getResult _ _ _ _ _ Hsim Hself).
  case_bool_decide.
  - destruct (sim_handleResult _ _ _ _ self (statusOnly pass) true Hsim Hself)
      as (_ & Hsim1 & Hself1).
    split; [done|]. by apply (sim_getResult _ _ _ _ _ Hsim1).
  - split; [done|]. by apply (sim_getResult _ _ _ _ _ Hsim).
Qed.

Lemma sim_validateChildren ta tb children self :
  Forall (fun child => forall p sa sb,
            sim keep ta tb sa sb ->
            fst (validate child p oa sa) = fst (validate child p ob sb) /\
            sim keep ta tb (snd (validate child p oa sa)) (snd (validate child p ob sb)))
         children ->
  forall i sa sb,
    sim keep ta tb sa sb -> is_Some (results sa !! self) ->
    fst (validateChildren (fun c p => validate c p oa) self oa children i sa) =
    fst (validateChildren (fun c p => validate c p ob) self ob children i sb) /\
    sim keep ta tb
        (snd (validateChildren (fun c p => validate c p oa) self oa children i sa))
        (snd (validateChildren (fun c p => validate c p ob) self ob children i sb)) /\
    is_Some (results
               (snd (validateChildren (fun c p => validate c p oa) self oa children i sa))
             !! self).
Proof.
  induction 1 as [|child rest Hchild _ IH]; intros i sa sb Hsim Hself; [done|].
  rewrite !validateChildren_cons.
  rewrite (sim_getResult _ _ _ _ _ Hsim Hself).
  case_bool_decide; [done|].
  destruct (Hchild (self ++ [i]) sa sb Hsim) as [Hfst Hsim1].
  destruct (validate_grows child (self ++ [i]) oa sa) as [Hframe _].
  specialize (Hframe self (child_not_prefix self i)).
  destruct (validate child (self ++ [i]) oa sa) as [pa sa1].
  destruct (validate child (self ++ [i]) ob sb) as [pb sb1].
  cbn [fst snd] in *. subst pb. rewrite <- Hframe in Hself.
  destruct pa as [r|x|]; cbn [fst snd]; try done.
  destruct (sim_handleResult _ _ _ _ self r false Hsim1 Hself) as (_ & Hsim2 & Hself2).
  by apply IH.
Qed.

Lemma sim_validate ta tb v : forall self sa sb,
  sim keep ta tb sa sb ->
  fst (validate v self oa sa) = fst (validate v self ob sb) /\
  sim keep ta tb (snd (validate v self oa sa)) (snd (validate v self ob sb)).
Proof.
  induction v as [info children IH] using RuleValidator_nested_ind.
  intros self sa sb Hsim. rewrite !validate_eq.
  destruct (sim_shouldExec _ _ _ _ info self Hsim) as (Hfst0 & Hsim0 & Hself0).
  destruct (shouldExec info self sa) as [pa sa0].
  destruct (shouldExec info self sb) as [pb sb0].
  cbn [fst snd] in *. subst pb.
  destruct pa as [[|]|x|]; try done.
  - destruct (sim_ownRule _ _ _ _ info self Hsim0 Hself0) as (Hfst1 & Hsim1 & Hself1).
    destruct (ownRule info self oa sa0) as [pa sa1].
    destruct (ownRule info self ob sb0) as [pb sb1].
    cbn [fst snd] in *. subst pb.
    destruct pa as [[]|x|]; try done.
    destruct (sim_validateChildren _ _ children self IH 0 sa1 sb1 Hsim1 Hself1)
      as (Hfst2 & Hsim2 & Hself2).
    destruct (validateChildren _ self oa children 0 sa1) as [pa sa2].
    destruct (validateChildren _ self ob children 0 sb1) as [pb sb2].
    cbn [fst snd] in *. subst pb.
    destruct pa as [[]|x|]; try done.
    cbv zeta. cbn [fst snd].
    destruct (sim_finish _ _ _ _ self Hsim2 Hself2) as [Hsim3 Hget].
    by rewrite Hget.
  - cbv zeta. cbn [fst snd].
    destruct (sim_handleResult _ _ _ _ self (statusOnly not_applicable) true
                Hsim0 Hself0) as (_ & Hsim1 & Hself1).
    split; [|done]. by rewrite (sim_getResult _ _ _ _ _ Hsim1 Hself1).
Qed.

End TwoRuns.

Section Reruns.
Context {Raw CTX : Type}.
Implicit Types (st : State Raw CTX) (self q : NodeRef).
Implicit Types (observer : option (ValidationObserver Raw CTX)).
Implicit Types (v : RuleValidator Raw CTX).

Lemma filter_everything {A} (l : list A) : List.filter (fun _ => true) l = l.
Proof. induction l as [|a l IH]; cbn [List.filter]; by rewrite ?IH. Qed.

Lemma sameShape_refl observer : sameShape observer observer.
Proof. by destruct observer. Qed.

(** A run from any state against the run from the same context with an
    empty store and an empty trace. *)
Lemma validate_from_cleared v self observer st :
  fst (validate v self observer st)
    = fst (validate v self observer (mkState (context st) ∅ [])) /\
  context (snd (validate v self observer st))
    = context (snd (validate v self observer (mkState (context st) ∅ []))) /\
  trace (snd (validate v self observer st))
    = trace st ++ trace (snd (validate v self observer (mkState (context st) ∅ []))).
Proof.
  destruct (sim_validate (fun _ => true) observer observer
              (fun _ _ _ => eq_refl) (or_introl (sameShape_refl observer))
              [] (trace st) v self (mkState (context st) ∅ []) st)
    as (Hfst & Hctx & _ & k & Ha & Hb).
  { split; [done|]. split.
    - intros q [r Hr]. cbn [results] in Hr. by rewrite lookup_empty in Hr.
    - exists []. cbn [trace]. rewrite !filter_everything, !app_nil_r. by split. }
  rewrite !filter_everything in Ha, Hb. cbn [app] in Ha.
  by rewrite Hfst, Hctx, Hb, Ha.
Qed.

(** X15. What [validate] does depends on the tree, the observer and the
    context only, not on the results earlier runs left in the nodes: from two
    states with the same context it settles the same way, leaves the same
    context, and makes the same calls of guards, rule bodies and observer in
    the same order. *)
Theorem validate_forgets_earlier_results v self observer st1 st2 :
  context st1 = context st2 ->
  fst (validate v self observer st1) = fst (validate v self observer st2) /\
  context (snd (validate v self observer st1))
    = context (snd (validate v self observer st2)) /\
  exists k,
    trace (snd (validate v self observer st1)) = trace st1 ++ k /\
    trace (snd (validate v self observer st2)) = trace st2 ++ k.
Proof.
  intros Hctx.
  destruct (validate_from_cleared v self observer st1) as (Hf1 & Hc1 & Ht1).
  destruct (validate_from_cleared v self observer st2) as (Hf2 & Hc2 & Ht2).
  rewrite Hctx in Hf1, Hc1, Ht1.
  split; [by rewrite Hf1, Hf2|]. split; [by rewrite Hc1, Hc2|].
  eexists. split; [exact Ht1 | exact Ht2].
Qed.

(** X16. Validating again gives the same answer: when the callbacks left
    the context as they found it, a second [validate] on the node settles as
    the first did and repeats the same calls in the same order. *)
Theorem validate_twice_same_result v self observer st :
  context (snd (validate v self observer st)) = context st ->
  fst (validate v self observer (snd (validate v self observer st)))
    = fst (validate v self observer st) /\
  exists k,
    trace (snd (validate v self observer st)) = trace st ++ k /\
    trace (snd (validate v self observer (snd (validate v self observer st))))
      = (trace st ++ k) ++ k.
Proof.
  intros Hctx.
  destruct (validate_from_cleared v self observer st) as (Hf1 & Hc1 & Ht1).
  destruct (validate_from_cleared v self observer (snd (validate v self observer st)))
    as (Hf2 & Hc2 & Ht2).
  rewrite Hctx in Hf2, Hc2, Ht2.
  split; [by rewrite Hf1, Hf2|].
  eexists. split; [exact Ht1|]. by rewrite Ht2, Ht1.
Qed.


End Reruns.

(** ** Observers that may throw *)

Section Throwing.
Context {Raw CTX : Type}.
Implicit Types (st : State Raw CTX) (self q : NodeRef) (res : ValidationResult Raw).
Implicit Types (oT : option (ObserverCallback Raw CTX)).
Implicit Types (o : option (ValidationObserver Raw CTX)).
Implicit Types (info : RuleDescription Raw CTX) (v : RuleValidator Raw CTX).
Open Scope async_scope.

#[local] Arguments handleResult : simpl never.
#[local] Arguments handleResultT : simpl never.
#[local] Arguments executeRule : simpl never.
#[local] Arguments shouldExec : simpl never.
#[local] Arguments ownRule : simpl never.
#[local] Arguments ownRuleT : simpl never.
#[local] Arguments finish : simpl never.
#[local] Arguments finishT : simpl never.

(** *** The stages written out *)

Lemma ownRuleT_eq info self oT st :
  ownRuleT info self oT st =
  match handleResultT self (statusOnly running) oT false st with
  | (Fulfilled _, st1) =>
      match rule info with
      | Some _ =>
          match executeRule info self st1 with
          | (Fulfilled res, st2) =>
              match handleResultT self res oT false st2 with
              | (Fulfilled _, st3) => (Fulfilled tt, st3)
              | (RejectedWith x, st3) => (RejectedWith x, st3)
              | (NeverSettles, st3) => (NeverSettles, st3)
              end
          | (RejectedWith x, st2) => (RejectedWith x, st2)
          | (NeverSettles, st2) => (NeverSettles, st2)
          end
      | None => (Fulfilled tt, st1)
      end
  | (RejectedWith x, st1) => (RejectedWith x, st1)
  | (NeverSettles, st1) => (NeverSettles, st1)
  end.
Proof.
  unfold ownRuleT, bind, ret.
  destruct (handleResultT self (statusOnly running) oT false st) as [[r0|x|] st1];
    try reflexivity.
  destruct (rule info) as [body|]; [|reflexivity].
  destruct (executeRule info self st1) as [[res|x|] st2]; reflexivity.
Qed.

Lemma validateChildrenT_cons f self oT child rest i st :
  validateChildrenT f self oT (child :: rest) i st =
  if bool_decide (status (getResult st self) <> running)
  then (Fulfilled tt, st)
  else match f child (self ++ [i]) st with
       | (Fulfilled childResult, st1) =>
           match handleResultT self childResult oT false st1 with
           | (Fulfilled _, st2) => validateChildrenT f self oT rest (S i) st2
           | (RejectedWith x, st2) => (RejectedWith x, st2)
           | (NeverSettles, st2) => (NeverSettles, st2)
           end
       | (RejectedWith x, st1) => (RejectedWith x, st1)
       | (NeverSettles, st1) => (NeverSettles, st1)
       end.
Proof.
  simpl. case_bool_decide; [reflexivity|].
  unfold bind.
  destruct (f child (self ++ [i]) st) as [[childResult|x|] st1]; reflexivity.
Qed.

Lemma finishT_eq self oT st :
  finishT self oT st =
  if bool_decide (status (getResult st self) = running)
  then match handleResultT self (statusOnly pass) oT true st with
       | (Fulfilled _, st1) => (Fulfilled tt, st1)
       | (RejectedWith x, st1) => (RejectedWith x, st1)
       | (NeverSettles, st1) => (NeverSettles, st1)
       end
  else (Fulfilled tt, st).
Proof.
  unfold finishT, bind, ret. case_bool_decide; reflexivity.
Qed.

Lemma validateT_eq info children self oT st :
  validateT (mkRuleValidator info children) self oT st =
  match shouldExec info self st with
  | (Fulfilled true, st0) =>
      match ownRuleT info self oT st0 with
      | (Fulfilled _, st1) =>
          match validateChildrenT (fun child p => validateT child p oT)
                                  self oT children 0 st1 with
          | (Fulfilled _, st2) =>
              match finishT self oT st2 with
              | (Fulfilled _, st3) => (Fulfilled (getResult st3 self), st3)
              | (RejectedWith x, st3) => (RejectedWith x, st3)
              | (NeverSettles, st3) => (NeverSettles, st3)
              end
          | (RejectedWith x, st2) => (RejectedWith x, st2)
          | (NeverSettles, st2) => (NeverSettles, st2)
          end
      | (RejectedWith x, st1) => (RejectedWith x, st1)
      | (NeverSettles, st1) => (NeverSettles, st1)
      end
  | (Fulfilled false, st0) =>
      match handleResultT self (statusOnly not_applicable) oT true st0 with
      | (Fulfilled _, st3) => (Fulfilled (getResult st3 self), st3)
      | (RejectedWith x, st3) => (RejectedWith x, st3)
      | (NeverSettles, st3) => (NeverSettles, st3)
      end
  | (RejectedWith x, st0) => (RejectedWith x, st0)
  | (NeverSettles, st0) => (NeverSettles, st0)
  end.
Proof.
  cbn [validateT]. unfold bind at 1.
  destruct (shouldExec info self st) as [[[|]|x|] st0]; try reflexivity.
  - unfold bind at 1. unfold bind at 1.
    destruct (ownRuleT info self oT st0) as [[[]|x|] st1]; try reflexivity.
    unfold bind at 1.
    destruct (validateChildrenT _ self oT children 0 st1) as [[[]|x|] st2];
      reflexivity.
  - unfold bind, ret.
    destruct (handleResultT self (statusOnly not_applicable) oT true st0)
      as [[r|x|] st3]; reflexivity.
Qed.

(** *** Observers that return *)

Lemma observerReturns_refines oT : observerReturns oT -> refinesObs oT (onContext oT).
Proof.
  destruct oT as [f|]; [|done]. intros Hret p r c. cbn [onContext].
  destruct (Hret p r c) as [c' ->]. reflexivity.
Qed.

Lemma handleResultT_returning oT o self res isFinal st :
  refinesObs oT o ->
  handleResultT self res oT isFinal st =
  (Fulfilled (fst (handleResult self res o isFinal st)),
   snd (handleResult self res o isFinal st)).
Proof.
  intros Href. unfold handleResultT. rewrite handleResult_switched. cbv zeta.
  cbn [fst snd].
  destruct oT as [f|], o as [g|]; try done.
  case_bool_decide; [|done].
  unfold bind, call. cbn [refinesObs] in Href. rewrite Href. reflexivity.
Qed.

Lemma ownRuleT_returning oT o info self st :
  refinesObs oT o -> ownRuleT info self oT st = ownRule info self o st.
Proof.
  intros Href. rewrite ownRuleT_eq, ownRule_eq. cbv zeta.
  rewrite (handleResultT_returning _ _ _ _ _ _ Href).
  destruct (rule info) as [body|]; [|reflexivity].
  destruct (executeRule info self _) as [[res|x|] st2]; try reflexivity.
  by rewrite (handleResultT_returning _ _ _ _ _ _ Href).
Qed.

Lemma finishT_returning oT o self st :
  refinesObs oT o -> finishT self oT st = finish self o st.
Proof.
  intros Href. rewrite finishT_eq, finish_eq. case_bool_decide; [|reflexivity].
  by rewrite (handleResultT_returning _ _ _ _ _ _ Href).
Qed.

Lemma validateChildrenT_returning oT o children self :
  refinesObs oT o ->
  Forall (fun child => forall p st, validateT child p oT st = validate child p o st)
         children ->
  forall i st,
    validateChildrenT (fun c p => validateT c p oT) self oT children i st =
    validateChildren (fun c p => validate c p o) self o children i st.
Proof.
  intros Href. induction 1 as [|child rest Hchild _ IH]; intros i st; [reflexivity|].
  rewrite validateChildrenT_cons, validateChildren_cons, Hchild.
  case_bool_decide; [reflexivity|].
  destruct (validate child (self ++ [i]) o st) as [[r|x|] st1]; try reflexivity.
  rewrite (handleResultT_returning _ _ _ _ _ _ Href). apply IH.
Qed.

(** On an observer that returns normally, [validateT] is [validate]. *)
Lemma validateT_returning oT o v :
  refinesObs oT o -> forall self st, validateT v self oT st = validate v self o st.
Proof.
  intros Href. induction v as [info children IH] using RuleValidator_nested_ind.
  intros self st. rewrite validateT_eq, validate_eq.
  destruct (shouldExec info self st) as [[[|]|x|] st0]; try reflexivity.
  - rewrite (ownRuleT_returning _ _ _ _ _ Href).
    destruct (ownRule info self o st0) as [[[]|x|] st1]; try reflexivity.
    rewrite (validateChildrenT_returning _ _ _ _ Href IH).
    destruct (validateChildren _ self o children 0 st1) as [[[]|x|] st2];
      try reflexivity.
    rewrite (finishT_returning _ _ _ _ Href), finish_eq. reflexivity.
  - by rewrite (handleResultT_returning _ _ _ _ _ _ Href).
Qed.


(** *** Claims and further properties with observers that may throw *)


(** X11. [validate] produces a result whenever the callbacks let it: in a
    tree where no guard throws and no rule body hands back a promise that
    stays pending, run with no observer or with one that returns normally,
    the promise of [validate] is fulfilled, for every context and whatever
    the rule bodies throw or reject with. *)
Theorem validateT_resolves v self oT st :
  allNodes (fun info => guardReturns info /\ ruleSettles info) v ->
  observerReturns oT ->
  exists r, fst (validateT v self oT st) = Fulfilled r.
Proof.
  intros Hall Hret.
  rewrite (validateT_returning _ _ _ (observerReturns_refines _ Hret)).
  by apply validate_resolves.
Qed.


End Throwing.

(** ** The claims on the sample trees *)

Section OnSamples.
Import Samples.

(** C1. A guard [async () => false] on a node with a counting rule body and
    a child with a counting rule body: [validate] resolves with [pass], not
    with [not-applicable], and both rule bodies ran. *)
Theorem async_false_guard_runs_rule_and_child :
  fst (validate asyncSkipped [] None st0) = Fulfilled (statusOnly pass) /\
  context (snd (validate asyncSkipped [] None st0)) = 2 /\
  trace (snd (validate asyncSkipped [] None st0))
    = [WhenCalled []; RuleCalled []; RuleCalled [0]].
Proof. split; [|split]; vm_compute; reflexivity. Qed.

(** The same node with the synchronous guard [() => false]: nothing ran. *)
Example sync_false_guard_skips :
  fst (validate skipped [] None st0) = Fulfilled (statusOnly not_applicable) /\
  context (snd (validate skipped [] None st0)) = 0 /\
  trace (snd (validate skipped [] None st0)) = [WhenCalled []].
Proof. split; [|split]; vm_compute; reflexivity. Qed.


(** C9, as stated, fails: a rule body that returns [{status: 'none'}] makes
    [validate] resolve with status [none]. *)
Lemma rule_returning_none_ends_none :
  fst (validate returnsNone [] None st0) = Fulfilled (statusOnly none).
Proof. reflexivity. Qed.

(** *** The theorems at concrete inputs *)

Lemma handleResult_unconditional_and_pass_witness :
  getResult (snd (handleResult [] (statusOnly not_applicable) (Some counting) false
                    (stAt boom))) []
    = statusOnly not_applicable /\
  getResult (snd (handleResult [] (statusOnly pass) (Some counting) true
                    (stAt (statusOnly running)))) []
    = statusOnly pass /\
  getResult (snd (handleResult [] (statusOnly pass) (Some counting) false
                    (stAt (statusOnly running)))) []
    = getResult (stAt (statusOnly running)) [] /\
  getResult (snd (handleResult [] (statusOnly pass) (Some counting) true
                    (stAt boom))) []
    = getResult (stAt boom) [].
Proof.
  split; [|split; [|split]].
  - apply (proj1 (handleResult_unconditional_and_pass [] (statusOnly not_applicable)
             (Some counting) false (stAt boom))).
    right; left; reflexivity.
  - apply (proj1 (proj2 (handleResult_unconditional_and_pass [] (statusOnly pass)
             (Some counting) true (stAt (statusOnly running)))));
      reflexivity.
  - apply (proj1 (proj2 (proj2 (handleResult_unconditional_and_pass [] (statusOnly pass)
             (Some counting) false (stAt (statusOnly running))))));
      reflexivity.
  - apply (proj2 (proj2 (proj2 (handleResult_unconditional_and_pass [] (statusOnly pass)
             (Some counting) true (stAt boom))))); [reflexivity|].
    vm_compute. discriminate.
Defined.

Lemma handleResult_inconclusive_and_fail_witness :
  getResult (snd (handleResult [] (statusOnly inconclusive) (Some counting) false
                    (stAt (statusOnly running)))) []
    = statusOnly inconclusive /\
  getResult (snd (handleResult [] (statusOnly inconclusive) (Some counting) false
                    (stAt boom))) []
    = getResult (stAt boom) [] /\
  getResult (snd (handleResult [] boom (Some counting) false
                    (stAt (statusOnly running)))) []
    = boom /\
  (getResult (snd (handleResult [] (statusOnly fail) (Some counting) false
                     (stAt boom))) []
     = getResult (stAt boom) [] /\
   error (getResult (snd (handleResult [] (statusOnly fail) (Some counting) false
                            (stAt boom))) [])
     = error (getResult (stAt boom) [])).
Proof.
  split; [|split; [|split]].
  - apply (proj1 (handleResult_inconclusive_and_fail [] (statusOnly inconclusive)
             (Some counting) false (stAt (statusOnly running)))); [reflexivity|].
    vm_compute. discriminate.
  - apply (proj1 (proj2 (handleResult_inconclusive_and_fail [] (statusOnly inconclusive)
             (Some counting) false (stAt boom)))); reflexivity.
  - apply (proj1 (proj2 (proj2 (handleResult_inconclusive_and_fail [] boom
             (Some counting) false (stAt (statusOnly running)))))); [reflexivity|].
    vm_compute. discriminate.
  - apply (proj2 (proj2 (proj2 (handleResult_inconclusive_and_fail [] (statusOnly fail)
             (Some counting) false (stAt boom))))); reflexivity.
Defined.

Lemma children_short_circuit_witness :
  (exists st2,
     validate parentABC [] (Some counting) st0 =
       (Fulfilled boom, snd (handleResult [] boom (Some counting) false st2)) /\
     trace (snd (handleResult [] boom (Some counting) false st2)) =
       trace st2 ++ [Observed [] boom] /\
     logs (fun q => forall i below, q <> [] ++ S i :: below)
          st0 (snd (handleResult [] boom (Some counting) false st2))) /\
  validateChildren (fun child p => validate child p (Some counting)) []
                   (Some counting) [B; C] 1 (stAt boom)
    = (Fulfilled tt, stAt boom).
Proof.
  split.
  - eexists.
    eapply (proj1 children_short_circuit (ruleInfo leaf) A [B; C] [] (Some counting) st0).
    + vm_compute. reflexivity.
    + vm_compute. reflexivity.
    + vm_compute. reflexivity.
    + vm_compute. reflexivity.
    + reflexivity.
  - apply (proj2 children_short_circuit). vm_compute. discriminate.
Defined.

Lemma rule_throw_becomes_fail_witness :
  (fst (executeRule (ruleInfo crashStructured) []
          (snd (handleResult [] (statusOnly running) (Some counting) false st0)))
     = Fulfilled (mkResult fail (Some structured)) /\
   getResult (snd (ownRule (ruleInfo crashStructured) [] (Some counting) st0)) []
     = mkResult fail (Some structured)) /\
  (exists E,
     fst (executeRule (ruleInfo crash) []
            (snd (handleResult [] (statusOnly running) (Some counting) false st0)))
       = Fulfilled (mkResult fail (Some E)) /\
     getResult (snd (ownRule (ruleInfo crash) [] (Some counting) st0)) []
       = mkResult fail (Some E) /\
     errorCode E = JsOther "boom"%string /\ message E = None).
Proof.
  split.
  - destruct (rule_throw_becomes_fail (ruleInfo crashStructured) [] (Some counting)
                throwStructured st0 (JsValidationError structured) eq_refl eq_refl)
      as (E & Hexec & Hown & Hsame & _).
    rewrite <- (Hsame structured eq_refl). split; assumption.
  - destruct (rule_throw_becomes_fail (ruleInfo crash) [] (Some counting)
                throwRule st0 (JsOther "boom"%string) eq_refl eq_refl)
      as (E & Hexec & Hown & _ & Hnew).
    exists E. repeat (split; [assumption|]). apply Hnew. reflexivity.
Defined.

Lemma pass_only_by_finalizing_witness :
  fst (validate (mkRuleValidator (ruleInfo leaf) []) [] (Some counting) st0)
    = Fulfilled (statusOnly pass) /\
  (exists s0 s1 s2,
     shouldExec (ruleInfo B) [] st0 = (Fulfilled true, s0) /\
     ownRule (ruleInfo B) [] (Some counting) s0 = (Fulfilled tt, s1) /\
     validateChildren (fun child p => validate child p (Some counting))
                      [] (Some counting) [leaf] 0 s1 = (Fulfilled tt, s2) /\
     status (getResult s2 []) = running /\
     (statusOnly pass,
      snd (validate (mkRuleValidator (ruleInfo B) [leaf]) [] (Some counting) st0))
       = handleResult [] (statusOnly pass) (Some counting) true s2) /\
  (status (statusOnly (Raw := string) pass) = pass /\ true = true /\
   status (getResult (stAt (statusOnly running)) []) = running).
Proof.
  split; [|split].
  - apply (proj1 pass_only_by_finalizing); reflexivity.
  - apply (proj1 (proj2 pass_only_by_finalizing)
             (ruleInfo B) [leaf] [] (Some counting) st0); reflexivity.
  - apply (proj2 (proj2 pass_only_by_finalizing)
             [] (statusOnly pass) (Some counting) true (stAt (statusOnly running)));
      [reflexivity|]. vm_compute. discriminate.
Defined.


Lemma validate_final_status_witness :
  status boom <> running /\
  (status boom = pass \/ status boom = inconclusive \/ status boom = fail \/
   status boom = not_applicable).
Proof.
  destruct (validate_final_status parentABC [] (Some counting) st0 boom
              (snd (validate parentABC [] (Some counting) st0)) eq_refl)
    as [Hrunning Hnone].
  split; [exact Hrunning|]. apply Hnone.
  repeat split; intros body c [= <-]; exact I.
Defined.


End OnSamples.

(** ** The further theorems on the sample trees *)

Section MoreOnSamples.
Import Samples.

Lemma fail_absorbs_later_merges_witness :
  mergeAll [] (Some counting)
           [(statusOnly pass, false); (statusOnly inconclusive, false);
            (statusOnly fail, false); (statusOnly pass, true)]
           (stAt boom)
    = stAt boom.
Proof.
  apply fail_absorbs_later_merges; [reflexivity|].
  repeat (apply Forall_cons_2; [cbn [fst status statusOnly]; auto|]).
  apply Forall_nil_2.
Defined.

Lemma rejected_rule_promise_becomes_fail_witness :
  exists E,
    executeRule (ruleInfo rejecting) [] st0 =
      (Fulfilled (mkResult fail (Some E)),
       mkState (snd (rejectingRule (context st0))) (results st0)
               (trace st0 ++ [RuleCalled []])) /\
    E = mkValidationError (JsOther "late"%string) None EmptyString.
Proof.
  destruct (rejected_rule_promise_becomes_fail (ruleInfo rejecting) [] rejectingRule st0
              (JsOther "late"%string) eq_refl eq_refl) as (E & Hexec & _ & Hnew).
  exists E. split; [exact Hexec|]. apply Hnew. reflexivity.
Defined.

Lemma own_rule_verdict_skips_children_witness :
  exists st2,
    validate (mkRuleValidator (ruleInfo undecided) [B; C]) [] (Some counting) st0 =
      (Fulfilled (statusOnly inconclusive),
       snd (handleResult [] (statusOnly inconclusive) (Some counting) false st2)).
Proof.
  eexists.
  eapply (own_rule_verdict_skips_children (ruleInfo undecided) [B; C] []
            (Some counting) st0).
  - vm_compute. reflexivity.
  - reflexivity.
  - vm_compute. reflexivity.
  - vm_compute. discriminate.
  - vm_compute. discriminate.
Defined.

Lemma own_rule_pass_is_dropped_witness :
  exists s0 st2,
    ownRule (ruleInfo passWithError) [] (Some counting) s0 = (Fulfilled tt, st2) /\
    getResult st2 [] = statusOnly running /\
    fst (validate (mkRuleValidator (ruleInfo passWithError) []) [] (Some counting) st0)
      = Fulfilled (statusOnly pass).
Proof.
  eexists. eexists.
  eapply (own_rule_pass_is_dropped (ruleInfo passWithError) [] (Some counting) st0).
  - vm_compute. reflexivity.
  - reflexivity.
  - vm_compute. reflexivity.
  - reflexivity.
Defined.

Lemma child_verdict_stops_loop_witness :
  exists st2,
    validateChildren (fun c p => validate c p (Some counting)) [] (Some counting)
                     [guardedOff; A; B] 0 (stAt (statusOnly running))
      = (Fulfilled tt,
         snd (handleResult [] (statusOnly not_applicable) (Some counting) false st2)) /\
    getResult (snd (handleResult [] (statusOnly not_applicable) (Some counting)
                      false st2)) []
      = statusOnly not_applicable.
Proof.
  eexists.
  eapply (child_verdict_stops_loop (Some counting) [] guardedOff [A; B] 0
            (stAt (statusOnly running))).
  - reflexivity.
  - vm_compute. reflexivity.
  - vm_compute. discriminate.
Defined.

Lemma passing_child_leaves_no_mark_witness :
  exists st2,
    validateChildren (fun c p => validate c p (Some counting)) [] (Some counting)
                     [B; A] 0 (stAt (statusOnly running))
      = validateChildren (fun c p => validate c p (Some counting)) [] (Some counting)
                         [A] 1 st2 /\
    getResult st2 [] = getResult (stAt (statusOnly running)) [].
Proof.
  eexists.
  eapply (passing_child_leaves_no_mark (Some counting) [] B [A] 0
            (stAt (statusOnly running)) (statusOnly pass)).
  - reflexivity.
  - vm_compute. reflexivity.
  - reflexivity.
Defined.

Lemma containers_pass_and_call_nothing_witness :
  fst (validate hollow [] None st0) = Fulfilled (statusOnly pass) /\
  context (snd (validate hollow [] None st0)) = context st0 /\
  trace (snd (validate hollow [] None st0)) = trace st0.
Proof.
  destruct (containers_pass_and_call_nothing hollow [] None st0) as [Hpass Hquiet].
  { repeat split. }
  split; [exact Hpass|]. apply Hquiet. reflexivity.
Defined.

Lemma pending_rule_leaves_node_running_witness :
  fst (validate (mkRuleValidator (ruleInfo hanging) [B]) [] (Some counting) st0)
    = NeverSettles /\
  getResult (snd (validate (mkRuleValidator (ruleInfo hanging) [B]) []
                           (Some counting) st0)) []
    = statusOnly running.
Proof.
  eapply (pending_rule_leaves_node_running (ruleInfo hanging) [B] [] (Some counting) st0).
  - vm_compute. reflexivity.
  - reflexivity.
  - reflexivity.
Defined.

Lemma validate_stays_in_subtree_witness :
  getResult (snd (validate A [0] (Some counting) (stAt (statusOnly running)))) []
    = getResult (stAt (statusOnly running)) [] /\
  getResult (snd (validate A [0] (Some counting) (stAt (statusOnly running)))) [0]
    = boom.
Proof.
  destruct (validate_stays_in_subtree A [0] (Some counting) (stAt (statusOnly running)))
    as (Hframe & _ & Hfield).
  split.
  - apply Hframe. intros Hprefix. apply prefix_length in Hprefix.
    cbn [length] in Hprefix. lia.
  - apply Hfield. reflexivity.
Defined.

Lemma child_rejection_propagates_witness :
  exists st2,
    validate crashingChild [] (Some counting) st0
      = (RejectedWith (JsOther "boom"%string), st2) /\
    status (getResult st2 []) = running.
Proof.
  eexists.
  eapply (child_rejection_propagates (ruleInfo leaf) guardCrash [B] []
            (Some counting) st0).
  - vm_compute. reflexivity.
  - vm_compute. reflexivity.
  - reflexivity.
  - vm_compute. reflexivity.
Defined.

Lemma validate_forgets_earlier_results_witness :
  fst (validate parentABC [] (Some counting) st0)
    = fst (validate parentABC [] (Some counting) (stAt (statusOnly pass))) /\
  context (snd (validate parentABC [] (Some counting) st0))
    = context (snd (validate parentABC [] (Some counting) (stAt (statusOnly pass)))) /\
  exists k,
    trace (snd (validate parentABC [] (Some counting) st0)) = trace st0 ++ k /\
    trace (snd (validate parentABC [] (Some counting) (stAt (statusOnly pass))))
      = trace (stAt (statusOnly pass)) ++ k.
Proof.
  apply (validate_forgets_earlier_results parentABC [] (Some counting)
           st0 (stAt (statusOnly pass))).
  reflexivity.
Defined.

Lemma validate_twice_same_result_witness :
  fst (validate skipped [] (Some watching)
         (snd (validate skipped [] (Some watching) st0)))
    = fst (validate skipped [] (Some watching) st0) /\
  exists k,
    trace (snd (validate skipped [] (Some watching) st0)) = trace st0 ++ k /\
    trace (snd (validate skipped [] (Some watching)
                  (snd (validate skipped [] (Some watching) st0))))
      = (trace st0 ++ k) ++ k.
Proof.
  apply (validate_twice_same_result skipped [] (Some watching) st0).
  reflexivity.
Defined.

Lemma false_guard_skips_node_witness :
  validate skipped [] (Some counting) st0 =
    (Fulfilled (statusOnly not_applicable),
     snd (handleResult [] (statusOnly not_applicable) (Some counting) true
            (mkState (snd (falseGuard (context st0)))
                     (<[ [] := statusOnly none]> (results st0))
                     (trace st0 ++ [WhenCalled []])))) /\
  context (snd (validate skipped [] (Some counting) st0)) =
    effect (Some counting) [] (statusOnly not_applicable)
           (snd (falseGuard (context st0))) /\
  trace (snd (validate skipped [] (Some counting) st0)) =
    trace st0 ++ [WhenCalled []; Observed [] (statusOnly not_applicable)].
Proof.
  apply (false_guard_skips_node (ruleInfo skipped) [B] [] (Some counting) st0 falseGuard);
    reflexivity.
Defined.


Lemma added_validator_is_validated_last_witness :
  validate (addValidator (mkRuleValidator (ruleInfo leaf) [A]) B) []
           (Some counting) st0
    = validate (mkRuleValidator (ruleInfo leaf) [A]) [] (Some counting) st0 /\
  fst (validate (addValidator (mkRuleValidator (ruleInfo leaf) [B]) A) []
                (Some counting) st0)
    = Fulfilled boom.
Proof.
  split.
  - edestruct (added_validator_is_validated_last (ruleInfo leaf) [A] B []
                 (Some counting) st0) as [Hstop _];
      [vm_compute; reflexivity | vm_compute; reflexivity | vm_compute; reflexivity |].
    apply Hstop. vm_compute. discriminate.
  - edestruct (added_validator_is_validated_last (ruleInfo leaf) [B] A []
                 (Some counting) st0) as [_ Hlast];
      [vm_compute; reflexivity | vm_compute; reflexivity | vm_compute; reflexivity |].
    rewrite Hlast; vm_compute; reflexivity.
Defined.

Lemma children_passing_in_turn_give_pass_witness :
  exists stEnd,
    validate allPass [] (Some counting) st0 =
      (Fulfilled (statusOnly pass),
       snd (handleResult [] (statusOnly pass) (Some counting) true stEnd)).
Proof.
  eexists.
  eapply (children_passing_in_turn_give_pass (ruleInfo leaf) [B; guardedOn; C] []
            (Some counting) st0).
  - vm_compute. reflexivity.
  - vm_compute. reflexivity.
  - reflexivity.
  - cbn [passesInTurn].
    eexists. eexists. split; [vm_compute; reflexivity|]. split; [reflexivity|].
    eexists. eexists. split; [vm_compute; reflexivity|]. split; [reflexivity|].
    eexists. eexists. split; [vm_compute; reflexivity|]. split; [reflexivity|].
    reflexivity.
Defined.

Lemma validateT_resolves_witness :
  exists r, fst (validateT crashBelow [] (Some countingCallback) st0) = Fulfilled r.
Proof.
  apply validateT_resolves.
  - repeat split; try (intros f c [= <-]; try (eexists; reflexivity); discriminate);
      intros f c H; discriminate H.
  - intros p r c. eexists. reflexivity.
Defined.


End MoreOnSamples.
